(** * mkt-chatbot: the crawl / extract / store pipeline

    A shallow embedding of the Python sources

      - [aws/s3.py]                  (class [AWSS3])
      - [processing/_base.py]        (class [BaseProcessing])
      - [processing/superside.py]    (class [Superside])
      - [crawler/spiders/superside.py] (class [SupersideSpider])

    together with executable models of the library calls they make
    ([str] methods, [re.sub], [json.dumps] / [json.loads], [nested_lookup],
    the S3 bucket, the lxml tree with the XPath queries that occur in the
    sources, and the MongoDB collection).

    Conventions.
      - A Python [str] is a [string]; a character is a code point below 256,
        so "non-ASCII" means a code in 128..255.
      - A Python exception is a value [Raise e] of the [result] type; a call
        that returns normally is [Ok v].
      - JSON numbers are integers; floating point values are not modelled.
      - Text outside these conventions is outside the model: where Python
        accepts a JSON number with a fraction or an exponent, an escape
        [\uXXXX] above [\u00ff] or a UTF-8 sequence of three or four bytes,
        the decoders here refuse it. The statements about reading a
        capture are therefore about captures within the conventions. *)

From Stdlib Require Import Ascii String ZArith List Lia Bool.
From Stdlib Require Import DecimalString DecimalZ DecimalFacts.
From stdpp Require Import gmap strings list sorting.

Local Open Scope stdpp_scope.

#[local] Set Warnings "-register-all".

(* ===================================================================== *)
(** * Exceptions *)
(* ===================================================================== *)

Inductive exn : Type :=
  | IndexError          (* [lst[0]] on an empty list *)
  | TypeError           (* iterating [None], parsing a non-string *)
  | AttributeError      (* [.strip()] or [.get()] on a value without it *)
  | JSONDecodeError     (* [json.loads] on text that is not JSON *)
  | ParserError         (* [lxml.html.fromstring] on an empty document *)
  | UnicodeDecodeError  (* [bytes.decode("utf-8")] on invalid bytes *)
  | NoSuchKey           (* [get_object] on a key that is not in the bucket *)
  | ParamValidationError. (* [put_object] with the empty key *)

Inductive result (A : Type) : Type :=
  | Ok (a : A)
  | Raise (e : exn).
Arguments Ok {A} a.
Arguments Raise {A} e.

(** [result] is a monad; stdpp's [x ← r; k] notation sequences calls and
    lets the first exception propagate, as Python does without [try]. *)
#[global] Instance result_ret : MRet result := fun _ a => Ok a.
#[global] Instance result_bind : MBind result := fun _ _ k r =>
  match r with
  | Ok a => k a
  | Raise e => Raise e
  end.

#[global] Instance exn_eq_dec : EqDecision exn.
Proof. solve_decision. Defined.

(* ===================================================================== *)
(** * Python [str] methods and [re.sub] *)
(* ===================================================================== *)

Module Py.

(** [ord(c)] *)
Definition ord (c : ascii) : nat := nat_of_ascii c.

(** [s.startswith(p)] *)
Fixpoint startswith (p s : string) : bool :=
  match p, s with
  | "", _ => true
  | String a p', String b s' => if decide (a = b) then startswith p' s' else false
  | String _ _, "" => false
  end.

(** [sub in s] *)
Fixpoint contains (sub s : string) : bool :=
  match s with
  | "" => startswith sub ""
  | String _ r => startswith sub s || contains sub r
  end.

(** ["".join(f(c) for c in s)] *)
Fixpoint map_chars (f : ascii → ascii) (s : string) : string :=
  match s with
  | "" => ""
  | String c r => String (f c) (map_chars f r)
  end.

(** [sep.join(l)] *)
Fixpoint join (sep : string) (l : list string) : string :=
  match l with
  | [] => ""
  | [x] => x
  | x :: rest => x +:+ sep +:+ join sep rest
  end.

(** A left-to-right scan that replaces every non-overlapping match.
    [matcher s] is the length of the match that starts at the head of
    [s], if there is one; after a match the scan resumes behind it, which
    the counter [skip] accounts for. This is how both [str.replace] and
    [re.sub] walk over their input when no match is empty. *)
Section Scan.
Variable matcher : string → option nat.
Variable repl : string.

Fixpoint scan (skip : nat) (s : string) : string :=
  match s with
  | "" => ""
  | String c r =>
      match skip with
      | S k => scan k r
      | O =>
          match matcher s with
          | Some (S k) => repl +:+ scan k r
          | _ => String c (scan 0 r)
          end
      end
  end.
End Scan.

(** [s.replace(old, new)]; with an empty [old] Python puts [new] before
    every character and at the end. *)
Fixpoint intersperse_str (new s : string) : string :=
  match s with
  | "" => new
  | String c r => new +:+ String c (intersperse_str new r)
  end.

Definition replace (old new s : string) : string :=
  match old with
  | "" => intersperse_str new s
  | _ => scan (fun t => if startswith old t then Some (String.length old) else None)
              new 0 s
  end.

(** [str.isspace] on the code points below 256. *)
Definition isspace (c : ascii) : bool :=
  let n := ord c in
  ((9 <=? n) && (n <=? 13)) || ((28 <=? n) && (n <=? 32))
  || (n =? 133) || (n =? 160).

Fixpoint lstrip (s : string) : string :=
  match s with
  | "" => ""
  | String c r => if isspace c then lstrip r else s
  end.

Definition rstrip (s : string) : string := String.rev (lstrip (String.rev s)).

(** [s.strip()] *)
Definition strip (s : string) : string := rstrip (lstrip s).

(** [s.split(sep)] for a non-empty [sep]: the pieces between the
    non-overlapping occurrences of [sep], found from the left. *)
Fixpoint split_skip (sep : string) (skip : nat) (s : string) : list string :=
  match s with
  | "" => [""]
  | String c r =>
      match skip with
      | S k => split_skip sep k r
      | O =>
          if startswith sep s
          then "" :: split_skip sep (String.length sep - 1) r
          else match split_skip sep 0 r with
               | p :: ps => String c p :: ps
               | [] => [String c ""]
               end
      end
  end.

Definition split (sep s : string) : list string := split_skip sep 0 s.

(** [l[-1]] on a list that [split] returned (never empty). *)
Definition last_piece (l : list string) : string := List.last l "".

(** The pattern [<.*?>] of [re.compile("<.*?>")]: a ["<"], then as few
    characters other than a newline as possible, then a [">"].
    [lazy_dot_gt s] is the number of characters that [.*?>] consumes at
    the head of [s]. *)
Fixpoint lazy_dot_gt (s : string) : option nat :=
  match s with
  | "" => None
  | String c r =>
      if decide (c = ">"%char) then Some 1
      else if decide (c = "010"%char) then None
      else S <$> lazy_dot_gt r
  end.

Definition tag_pattern (s : string) : option nat :=
  match s with
  | String "<" r => S <$> lazy_dot_gt r
  | _ => None
  end.

(** [re.sub(pattern, repl, s)] for a pattern that matches no empty string. *)
Definition re_sub (pattern : string → option nat) (repl s : string) : string :=
  scan pattern repl 0 s.

End Py.

(* ===================================================================== *)
(** * JSON values, [json.dumps] and [json.loads] *)
(* ===================================================================== *)

(** The Python values that [json.loads] builds: [None], [bool], [int],
    [str], [list] and [dict] with string keys. A [dict] keeps its keys in
    insertion order, which is the order [nested_lookup] walks them in. *)
Inductive json : Type :=
  | JNull
  | JBool (b : bool)
  | JInt (n : Z)
  | JStr (s : string)
  | JArr (items : list json)
  | JObj (fields : list (string * json)).

Module Json.

Definition quote : ascii := "034"%char.
Definition backslash : ascii := "092"%char.

(** ** Encoder: [json.dumps(v)] with the default [ensure_ascii=True] and
    the default separators [", "] and [": "]. *)

Definition hex_digit (n : nat) : ascii :=
  nth n (list_ascii_of_string "0123456789abcdef") "0"%char.

(** [ESCAPE_DCT] and the [\uXXXX] fallback of [json.encoder]: a character
    outside [' '..'~'], a quote or a backslash is escaped. *)
Definition escape_char (c : ascii) : string :=
  if decide (c = quote) then String backslash (String quote "")
  else if decide (c = backslash) then String backslash (String backslash "")
  else if decide (c = "010"%char) then "\n"
  else if decide (c = "013"%char) then "\r"
  else if decide (c = "009"%char) then "\t"
  else if decide (c = "008"%char) then "\b"
  else if decide (c = "012"%char) then "\f"
  else if (32 <=? Py.ord c) && (Py.ord c <=? 126) then String c ""
  else "\u00" +:+ String (hex_digit (Py.ord c / 16))
                      (String (hex_digit (Py.ord c mod 16)) "").

Fixpoint escape (s : string) : string :=
  match s with
  | "" => ""
  | String c r => escape_char c +:+ escape r
  end.

Definition dumps_str (s : string) : string :=
  String quote (escape s +:+ String quote "").

Definition dumps_int (n : Z) : string := NilEmpty.string_of_int (Z.to_int n).

Fixpoint dumps (v : json) : string :=
  match v with
  | JNull => "null"
  | JBool true => "true"
  | JBool false => "false"
  | JInt n => dumps_int n
  | JStr s => dumps_str s
  | JArr items =>
      let fix elems (l : list json) : string :=
        match l with
        | [] => ""
        | [x] => dumps x
        | x :: rest => dumps x +:+ ", " +:+ elems rest
        end in
      "[" +:+ elems items +:+ "]"
  | JObj fields =>
      let fix members (l : list (string * json)) : string :=
        match l with
        | [] => ""
        | [(k, x)] => dumps_str k +:+ ": " +:+ dumps x
        | (k, x) :: rest => dumps_str k +:+ ": " +:+ dumps x +:+ ", " +:+ members rest
        end in
      "{" +:+ members fields +:+ "}"
  end.

(** The loops of [dumps] over the items of a list and of a dict. *)
Fixpoint dumps_elems (l : list json) : string :=
  match l with
  | [] => ""
  | [x] => dumps x
  | x :: rest => dumps x +:+ ", " +:+ dumps_elems rest
  end.

Fixpoint dumps_members (l : list (string * json)) : string :=
  match l with
  | [] => ""
  | [(k, x)] => dumps_str k +:+ ": " +:+ dumps x
  | (k, x) :: rest => dumps_str k +:+ ": " +:+ dumps x +:+ ", " +:+ dumps_members rest
  end.

(** ** Decoder: [json.loads(s)]. *)

Definition is_ws (c : ascii) : bool :=
  match c with
  | " "%char | "009"%char | "010"%char | "013"%char => true
  | _ => false
  end.

Fixpoint skip_ws (s : string) : string :=
  match s with
  | "" => ""
  | String c r => if is_ws c then skip_ws r else s
  end.

Definition is_digit (c : ascii) : bool := (48 <=? Py.ord c) && (Py.ord c <=? 57).

Definition hex_value (c : ascii) : option nat :=
  let n := Py.ord c in
  if (48 <=? n) && (n <=? 57) then Some (n - 48)
  else if (97 <=? n) && (n <=? 102) then Some (n - 87)
  else if (65 <=? n) && (n <=? 70) then Some (n - 55)
  else None.

(** [BACKSLASH] of [json.decoder]. *)
Definition unescape (c : ascii) : option ascii :=
  match c with
  | "034"%char => Some quote
  | "092"%char => Some backslash
  | "/"%char => Some "/"%char
  | "b"%char => Some "008"%char
  | "f"%char => Some "012"%char
  | "n"%char => Some "010"%char
  | "r"%char => Some "013"%char
  | "t"%char => Some "009"%char
  | _ => None
  end.

(** [py_scanstring] in strict mode, behind the opening quote: the decoded
    string and the input behind the closing quote. A [\uXXXX] escape of a
    code point above 255 has no character in this model and is refused. *)
Fixpoint scanstring (s : string) : option (string * string) :=
  match s with
  | "" => None
  | String c r =>
      if decide (c = quote) then Some ("", r)
      else if decide (c = backslash) then
        match r with
        | String "u" (String h1 (String h2 (String h3 (String h4 r')))) =>
            a ← hex_value h1; b ← hex_value h2;
            c ← hex_value h3; d ← hex_value h4;
            if decide (a = 0 ∧ b = 0)
            then '(t, rest) ← scanstring r';
                 Some (String (ascii_of_nat (16 * c + d)) t, rest)
            else None
        | String e r' =>
            c' ← unescape e;
            '(t, rest) ← scanstring r';
            Some (String c' t, rest)
        | "" => None
        end
      else if Py.ord c <? 32 then None
      else '(t, rest) ← scanstring r; Some (String c t, rest)
  end.

Fixpoint span_digits (s : string) : string * string :=
  match s with
  | "" => ("", "")
  | String c r =>
      if is_digit c
      then let '(ds, rest) := span_digits r in (String c ds, rest)
      else ("", s)
  end.

Definition starts_frac_or_exp (s : string) : bool :=
  match s with
  | String "."%char _ | String "e"%char _ | String "E"%char _ => true
  | _ => false
  end.

(** The digits of a numeral, behind its sign. *)
Definition scan_digits (neg : bool) (s : string) : option (Z * string) :=
  let '(ds, rest) := span_digits s in
  match ds with
  | "" => None
  | String "0"%char (String _ _) => None
  | _ =>
      if starts_frac_or_exp rest then None
      else u ← NilEmpty.uint_of_string ds;
           Some (if neg then (- Z.of_uint u)%Z else Z.of_uint u, rest)
  end.

(** [NUMBER_RE] restricted to integers: an optional minus sign, then [0]
    or a digit string without a leading zero. A numeral that goes on with
    a fraction or an exponent is refused (no floating point here). *)
Definition scan_int (s : string) : option (Z * string) :=
  match s with
  | String c r => if decide (c = "-"%char) then scan_digits true r
                  else scan_digits false s
  | "" => None
  end.

(** [dict(pairs)]: a repeated key keeps its first position and takes the
    last value. *)
Fixpoint dict_set (k : string) (v : json) (d : list (string * json))
  : list (string * json) :=
  match d with
  | [] => [(k, v)]
  | (k', v') :: d' =>
      if decide (k = k') then (k, v) :: d' else (k', v') :: dict_set k v d'
  end.

Definition dict_of_pairs (pairs : list (string * json)) : list (string * json) :=
  fold_left (fun d kv => dict_set kv.1 kv.2 d) pairs [].

Section Containers.
(** The value scanner that the array and object loops call back. *)
Variable scan_once : string → option (json * string).

(** The loop of [JSONArray]: every round reads one value and then a
    [","] or the closing ["]"]. *)
Fixpoint scan_array (fuel : nat) (s : string) : option (list json * string) :=
  match fuel with
  | O => None
  | S fuel' =>
      '(v, r) ← scan_once s;
      match skip_ws r with
      | String c r' =>
          if decide (c = "]"%char) then Some ([v], r')
          else if decide (c = ","%char) then
            '(vs, r'') ← scan_array fuel' (skip_ws r');
            Some (v :: vs, r'')
          else None
      | "" => None
      end
  end.

(** The loop of [JSONObject]: every round reads ["key" : value] and
    then a [","] or the closing ["}"]. *)
Fixpoint scan_object (fuel : nat) (s : string)
  : option (list (string * json) * string) :=
  match fuel with
  | O => None
  | S fuel' =>
      match s with
      | String q r0 =>
          if decide (q = quote) then
            '(k, r1) ← scanstring r0;
            match skip_ws r1 with
            | String c r2 =>
                if decide (c = ":"%char) then
                  '(v, r3) ← scan_once (skip_ws r2);
                  match skip_ws r3 with
                  | String c' r4 =>
                      if decide (c' = "}"%char) then Some ([(k, v)], r4)
                      else if decide (c' = ","%char) then
                        '(kvs, r5) ← scan_object fuel' (skip_ws r4);
                        Some ((k, v) :: kvs, r5)
                      else None
                  | "" => None
                  end
                else None
            | "" => None
            end
          else None
      | "" => None
      end
  end.
End Containers.

(** The input behind a prefix, when it is there. *)
Fixpoint after_prefix (p s : string) : option string :=
  match p, s with
  | "", _ => Some s
  | String a p', String b s' => if decide (a = b) then after_prefix p' s' else None
  | String _ _, "" => None
  end.

Definition expect (lit rest : string) (v : json) : option (json * string) :=
  r ← after_prefix lit rest; Some (v, r).

(** [scan_once]: one JSON value at the head of [s]. Every nested value
    costs one unit of [fuel]; [loads] starts with more than any input
    can use. *)
Fixpoint scan_value (fuel : nat) (s : string) : option (json * string) :=
  match fuel with
  | O => None
  | S fuel' =>
      match s with
      | "" => None
      | String c r =>
          if decide (c = quote) then
            '(t, rest) ← scanstring r; Some (JStr t, rest)
          else if decide (c = "{"%char) then
            match skip_ws r with
            | "" => None
            | String c' r' as r1 =>
                if decide (c' = "}"%char) then Some (JObj [], r')
                else '(kvs, rest) ← scan_object (scan_value fuel') (String.length r1) r1;
                     Some (JObj (dict_of_pairs kvs), rest)
            end
          else if decide (c = "["%char) then
            match skip_ws r with
            | "" => None
            | String c' r' as r1 =>
                if decide (c' = "]"%char) then Some (JArr [], r')
                else '(vs, rest) ← scan_array (scan_value fuel') (String.length r1) r1;
                     Some (JArr vs, rest)
            end
          else if decide (c = "n"%char) then expect "ull" r JNull
          else if decide (c = "t"%char) then expect "rue" r (JBool true)
          else if decide (c = "f"%char) then expect "alse" r (JBool false)
          else '(n, rest) ← scan_int s; Some (JInt n, rest)
      end
  end.

(** [json.loads(s)]: leading white space, one value, trailing white space,
    end of input. *)
Definition loads (s : string) : result json :=
  match scan_value (S (String.length s)) (skip_ws s) with
  | Some (v, rest) =>
      match skip_ws rest with
      | "" => Ok v
      | _ => Raise JSONDecodeError
      end
  | None => Raise JSONDecodeError
  end.

(** ** Python views of a value *)

(** [bool(v)] *)
Definition truthy (v : json) : bool :=
  match v with
  | JNull => false
  | JBool b => b
  | JInt n => negb (n =? 0)%Z
  | JStr "" | JArr [] | JObj [] => false
  | JStr _ | JArr _ | JObj _ => true
  end.

(** [d[k]] looked up in a [dict]'s items *)
Fixpoint assoc (k : string) (d : list (string * json)) : option json :=
  match d with
  | [] => None
  | (k', v) :: d' => if decide (k = k') then Some v else assoc k d'
  end.

(** [v.get(k)]: [None] for a missing key, [AttributeError] when [v] is
    not a [dict]. *)
Definition get (v : json) (k : string) : result json :=
  match v with
  | JObj d => Ok (default JNull (assoc k d))
  | _ => Raise AttributeError
  end.

End Json.

(** [a == b] on parsed JSON values. *)
Fixpoint json_eqb (x y : json) : bool :=
  match x, y with
  | JNull, JNull => true
  | JBool a, JBool b => bool_decide (a = b)
  | JInt a, JInt b => bool_decide (a = b)
  | JStr a, JStr b => bool_decide (a = b)
  | JArr l1, JArr l2 =>
      (fix go (l1 l2 : list json) : bool :=
         match l1, l2 with
         | [], [] => true
         | a :: l1', b :: l2' => json_eqb a b && go l1' l2'
         | _, _ => false
         end) l1 l2
  | JObj l1, JObj l2 =>
      (fix go (l1 l2 : list (string * json)) : bool :=
         match l1, l2 with
         | [], [] => true
         | (k1, a) :: l1', (k2, b) :: l2' =>
             bool_decide (k1 = k2) && json_eqb a b && go l1' l2'
         | _, _ => false
         end) l1 l2
  | _, _ => false
  end.

(** A [dict] has no repeated key, at any depth. *)
Fixpoint wf_json (v : json) : Prop :=
  match v with
  | JArr items => (fix all (l : list json) : Prop :=
                     match l with
                     | [] => True
                     | x :: rest => wf_json x ∧ all rest
                     end) items
  | JObj fields => NoDup (map fst fields)
                   ∧ (fix all (l : list (string * json)) : Prop :=
                        match l with
                        | [] => True
                        | (_, x) :: rest => wf_json x ∧ all rest
                        end) fields
  | _ => True
  end.

(* ===================================================================== *)
(** * Python dictionaries whose keys are not strings *)
(* ===================================================================== *)

(** A [json] value is a Python value as [json.loads] builds it: the keys
    of its dictionaries are strings. The dictionary handed to
    [json.dumps] may have other keys; the encoder accepts [str], [int],
    [bool] and [None] keys and writes each of them as a string. *)
Inductive pykey : Type :=
  | KStr (s : string)
  | KInt (n : Z)
  | KBool (b : bool)
  | KNone.

Inductive pyvalue : Type :=
  | PNone
  | PBool (b : bool)
  | PInt (n : Z)
  | PStr (s : string)
  | PList (items : list pyvalue)
  | PDict (fields : list (pykey * pyvalue)).

Module PyValue.

(** The string that the encoder writes for a key. *)
Definition key_text (k : pykey) : string :=
  match k with
  | KStr s => s
  | KInt n => Json.dumps_int n
  | KBool true => "true"
  | KBool false => "false"
  | KNone => "null"
  end.

(** What [json.dumps(v)] serialises: [v] with every key as a string. *)
Fixpoint to_json (v : pyvalue) : json :=
  match v with
  | PNone => JNull
  | PBool b => JBool b
  | PInt n => JInt n
  | PStr s => JStr s
  | PList items => JArr (map to_json items)
  | PDict fields => JObj (map (fun kv => (key_text kv.1, to_json kv.2)) fields)
  end.

(** The Python value that a parsed [json] value is. *)
Fixpoint of_json (v : json) : pyvalue :=
  match v with
  | JNull => PNone
  | JBool b => PBool b
  | JInt n => PInt n
  | JStr s => PStr s
  | JArr items => PList (map of_json items)
  | JObj fields => PDict (map (fun kv => (KStr kv.1, of_json kv.2)) fields)
  end.

End PyValue.

(* ===================================================================== *)
(** * UTF-8 on the code points below 256 *)
(* ===================================================================== *)

Module Utf8.

(** [s.encode("utf-8")] *)
Definition encode_char (c : ascii) : string :=
  if Py.ord c <? 128 then String c ""
  else String (ascii_of_nat (192 + Py.ord c / 64))
              (String (ascii_of_nat (128 + Py.ord c mod 64)) "").

Fixpoint encode (s : string) : string :=
  match s with
  | "" => ""
  | String c r => encode_char c +:+ encode r
  end.

(** [b.decode("utf-8")]. The lead bytes 0xC2 and 0xC3 start the two-byte
    forms of the code points 128..255; any other byte above 127 is either
    invalid or starts a code point that has no character in this model,
    and is refused. *)
Fixpoint decode (b : string) : result string :=
  match b with
  | "" => Ok ""
  | String c r =>
      if Py.ord c <? 128 then t ← decode r; Ok (String c t)
      else if (Py.ord c =? 194) || (Py.ord c =? 195) then
        match r with
        | String d r' =>
            if (128 <=? Py.ord d) && (Py.ord d <? 192)
            then t ← decode r';
                 Ok (String (ascii_of_nat ((Py.ord c - 192) * 64 + (Py.ord d - 128))) t)
            else Raise UnicodeDecodeError
        | "" => Raise UnicodeDecodeError
        end
      else Raise UnicodeDecodeError
  end.

End Utf8.

(* ===================================================================== *)
(** * The world the programs run in *)
(* ===================================================================== *)

(** A MongoDB document as [Superside.run] writes it. *)
Record document : Type := Document {
  url : json;
  title : option string;
  description : option string;
  texts : option string;
  updated_at : nat
}.

(** The S3 bucket (key to object body, in bytes), the MongoDB collection
    of the company (in natural order) and the wall clock. *)
Record world : Type := World {
  bucket : gmap string string;
  collection : list document;
  clock : nat
}.

(** A call either returns or raises, and in both cases leaves the world in
    the state it reached. *)
Definition M (A : Type) : Type := world → result A * world.

#[global] Instance M_ret : MRet M := fun _ a w => (Ok a, w).
#[global] Instance M_bind : MBind M := fun _ _ k m w =>
  match m w with
  | (Ok a, w') => k a w'
  | (Raise e, w') => (Raise e, w')
  end.

Definition raise {A} (e : exn) : M A := fun w => (Raise e, w).

(** A pure call that may raise. *)
Definition lift {A} (r : result A) : M A := fun w => (r, w).

(** [for x in l: body(x)] *)
Fixpoint for_each {A} (body : A → M unit) (l : list A) : M unit :=
  match l with
  | [] => mret tt
  | x :: rest => body x ≫= fun _ => for_each body rest
  end.

(** [datetime.now()]: reads the clock, which then moves on. *)
Definition datetime_now : M nat := fun w =>
  (Ok (clock w), World (bucket w) (collection w) (S (clock w))).

(* ===================================================================== *)
(** * The boto3 S3 client *)
(* ===================================================================== *)

Module S3.

(** [put_object(Bucket, Body, Key)] with a [str] body, stored as UTF-8.
    The client checks its parameters before it sends anything: a key has
    at least one character, and the empty key raises
    [ParamValidationError] with the bucket untouched. (The store itself
    refuses a key of more than [max_key_bytes] bytes; that limit is not
    part of this definition, and the statements about arbitrary keys
    assume it, see [storable_key].) *)
Definition max_key_bytes : nat := 1024.

Definition put_object (body key : string) : M unit := fun w =>
  match key with
  | "" => (Raise ParamValidationError, w)
  | String _ _ =>
      (Ok tt, World (<[key := Utf8.encode body]> (bucket w)) (collection w) (clock w))
  end.

(** An entry of the ["Contents"] list of a listing. *)
Record object_summary : Type := ObjectSummary { Key : string; Size : nat }.

(** One page of [list_objects_v2] holds at most [MaxKeys] keys. *)
Definition max_keys : nat := 1000.

Definition keys_with_prefix (prefix : string) (b : gmap string string) : list string :=
  merge_sort String.le
    (filter (fun k => Py.startswith prefix k = true) (map fst (map_to_list b))).

(** [list_objects_v2(Bucket, Prefix).get("Contents")]: the objects whose
    key starts with the prefix, in the lexicographic order S3 lists them
    in; the response has no ["Contents"] entry when there is none. *)
Definition list_objects_v2 (prefix : string) : M (option (list object_summary)) :=
  fun w =>
    (Ok (match keys_with_prefix prefix (bucket w) with
         | [] => None
         | keys =>
             Some (map (fun k => ObjectSummary k
                                   (String.length (default "" (bucket w !! k))))
                       (take max_keys keys))
         end), w).

(** [get_object(Bucket, Key)["Body"].read()] *)
Definition get_object (key : string) : M string := fun w =>
  (match bucket w !! key with
   | Some body => Ok body
   | None => Raise NoSuchKey
   end, w).

End S3.

(* ===================================================================== *)
(** * [aws/s3.py]: class [AWSS3] *)
(* ===================================================================== *)

Module AWSS3.

Definition save_dict_to_json (item : json) (path : string) : M unit :=
  S3.put_object (Json.dumps item) path.

Definition list_files_from_path (path : string) : M (option (list string)) :=
  objects ← S3.list_objects_v2 path;
  mret (match objects with
        | Some (o :: os) => Some (map S3.Key (o :: os))
        | Some [] | None => None
        end).

Definition read_json (path : string) : M json :=
  file_content ← S3.get_object path;
  string_content ← lift (Utf8.decode file_content);
  lift (Json.loads string_content).

End AWSS3.

(* ===================================================================== *)
(** * The lxml tree and the XPath queries of the sources *)
(* ===================================================================== *)

Inductive HtmlElement : Type :=
  | Text (s : string)
  | Element (tag : string) (attrib : list (string * string))
            (children : list HtmlElement).

Module Lxml.

(** What the last step of a path selects. *)
Inductive target : Type :=
  | TextNodes                   (* [//text()] *)
  | Attribute (name : string).  (* [//@name] *)

(** The paths [//tag//target] and [//tag[@attr='value']//target]. *)
Record selector : Type := Selector {
  sel_tag : string;
  sel_pred : option (string * string);
  sel_target : target
}.

Fixpoint attr (name : string) (attrib : list (string * string)) : option string :=
  match attrib with
  | [] => None
  | (k, v) :: rest => if decide (name = k) then Some v else attr name rest
  end.

Definition step_matches (sel : selector) (tag : string)
           (attrib : list (string * string)) : bool :=
  bool_decide (tag = sel_tag sel)
  && match sel_pred sel with
     | None => true
     | Some (a, v) => bool_decide (attr a attrib = Some v)
     end.

(** The nodes that the path selects below [n], in document order;
    [inside] tells whether an ancestor of [n] already matched the
    element step, which makes [n] one of its descendants. *)
Fixpoint select (sel : selector) (inside : bool) (n : HtmlElement) : list string :=
  match n with
  | Text s =>
      match sel_target sel with
      | TextNodes => if inside then [s] else []
      | Attribute _ => []
      end
  | Element tag attrib children =>
      let inside' := inside || step_matches sel tag attrib in
      match sel_target sel with
      | Attribute a => if inside' then option_list (attr a attrib) else []
      | TextNodes => []
      end ++ flat_map (select sel inside') children
  end.

(** [tree.xpath(selector)] *)
Definition xpath (tree : HtmlElement) (sel : selector) : list string :=
  select sel false tree.

(** [lxml.html.fromstring(content)]: only a [str] can be parsed; the
    parser itself is the argument [parse_html]. *)
Definition fromstring (parse_html : string → result HtmlElement) (content : json)
  : result HtmlElement :=
  match content with
  | JStr s => parse_html s
  | _ => Raise TypeError
  end.

End Lxml.

(** The selectors that occur in the sources. *)

(** ["//script[@id='__NEXT_DATA__']//text()"] *)
Definition sel_next_data : Lxml.selector :=
  Lxml.Selector "script" (Some ("id", "__NEXT_DATA__")) Lxml.TextNodes.

(** ['//meta[@property="og:title"]//@content'] *)
Definition sel_title : Lxml.selector :=
  Lxml.Selector "meta" (Some ("property", "og:title")) (Lxml.Attribute "content").

(** ['//meta[@name="description"]//@content'] *)
Definition sel_description : Lxml.selector :=
  Lxml.Selector "meta" (Some ("name", "description")) (Lxml.Attribute "content").

(** ["//p//text()"] *)
Definition sel_texts : Lxml.selector :=
  Lxml.Selector "p" None Lxml.TextNodes.

(* ===================================================================== *)
(** * The [nested_lookup] package *)
(* ===================================================================== *)

(** [nested_lookup(key, document)]: the values stored under [key] in the
    dictionaries of [document], at every depth, in the order a depth-first
    walk meets them; a matching value is reported and then searched too. *)
Fixpoint nested_lookup (key : string) (document : json) : list json :=
  match document with
  | JArr items => flat_map (nested_lookup key) items
  | JObj fields =>
      flat_map (fun kv : string * json =>
                  (if decide (key = kv.1) then [kv.2] else [])
                  ++ nested_lookup key kv.2) fields
  | _ => []
  end.

(* ===================================================================== *)
(** * The pymongo collection *)
(* ===================================================================== *)

Module Mongo.

(** [collection.replace_one(filter={"url": u}, replacement, upsert)]:
    the first document whose [url] equals [u] is replaced in place; when
    there is none and [upsert] is set, the replacement is inserted. *)
Fixpoint replace_first (u : json) (replacement : document) (c : list document)
  : option (list document) :=
  match c with
  | [] => None
  | d :: rest =>
      if json_eqb (url d) u then Some (replacement :: rest)
      else cons d <$> replace_first u replacement rest
  end.

Definition replace_one (u : json) (replacement : document) (upsert : bool) : M unit :=
  fun w =>
    let c := collection w in
    let c' := match replace_first u replacement c with
              | Some c' => c'
              | None => if upsert then c ++ [replacement] else c
              end in
    (Ok tt, World (bucket w) c' (clock w)).

(** [collection.drop()] *)
Definition drop : M unit := fun w => (Ok tt, World (bucket w) [] (clock w)).

End Mongo.

(* ===================================================================== *)
(** * [processing/_base.py]: class [BaseProcessing] *)
(* ===================================================================== *)

Record BaseProcessing : Type := {
  company : string;
  full_load : bool;
  debug : bool;
  database : string;
  invalid_pages : list string
}.

(** The dataclass constructor with the defaults of the class. *)
Definition new_BaseProcessing (company : string) (full_load debug : bool)
  : BaseProcessing :=
  {| company := company;
     full_load := full_load;
     debug := debug;
     database := "data";
     invalid_pages :=
       ["-blog-author-"; "-blog-authors-"; "-blog-category-"; "-blog-tag-"] |}.

(** [_connect_mongodb], as far as the collection goes. *)
Definition connect_mongodb (self : BaseProcessing) : M unit :=
  if full_load self then Mongo.drop else mret tt.

(** [get_files_paths]; [files] is what [glob] found. *)
Definition get_files_paths (self : BaseProcessing) (files : list string) : list string :=
  filter (fun file =>
            existsb (fun substring => Py.contains substring file) (invalid_pages self)
            = false)
         files.

Definition cleanhtml (text : string) : string :=
  Py.re_sub Py.tag_pattern "" text.

(** [lst[0]] *)
Definition first {A} (l : list A) : result A :=
  match l with
  | x :: _ => Ok x
  | [] => Raise IndexError
  end.

(** [text.strip()] on a value found in the payload. *)
Definition strip_value (text : json) : result string :=
  match text with
  | JStr s => Ok (Py.strip s)
  | _ => Raise AttributeError
  end.

(** [[f(x) for x in l]], which stops at the first exception. *)
Fixpoint comprehension {A B} (f : A → result B) (l : list A) : result (list B) :=
  match l with
  | [] => Ok []
  | x :: rest => y ← f x; ys ← comprehension f rest; Ok (y :: ys)
  end.

Definition newline : string := String "010"%char "".

(** The list [next_data] that [extract_next_data] builds from the parsed
    payload; the lookup of ["title"] is made and dropped. *)
Definition next_data_of (data_parsed : json) : list json :=
  let paragraph := nested_lookup "paragraph" data_parsed in
  let body := nested_lookup "body" data_parsed in
  let content := nested_lookup "content" data_parsed in
  let _ := nested_lookup "title" data_parsed in
  let next_data := [] in
  let next_data := next_data ++ paragraph in
  let next_data := next_data ++ body in
  let next_data := next_data ++ content in
  next_data.

(** [x or None] on a string. *)
Definition or_None (s : string) : option string :=
  match s with
  | "" => None
  | _ => Some s
  end.

Definition extract_next_data (tree : HtmlElement) : result (option string) :=
  data ← first (Lxml.xpath tree sel_next_data);
  data_parsed ← Json.loads data;
  let next_data := next_data_of data_parsed in
  next_data_cleaned ←
    comprehension (fun text => s ← strip_value text; Ok (cleanhtml s))
                  (filter (fun text => Json.truthy text = true) next_data);
  let next_data_text :=
    Py.replace "&nbsp;" "" (Py.replace newline "" (Py.join " " next_data_cleaned)) in
  Ok (or_None next_data_text).

Definition extract_text_by_xpath (tree : HtmlElement) (selector : Lxml.selector)
  : option string :=
  match Lxml.xpath tree selector with
  | [] => None
  | data => Some (Py.replace "&nbsp;" "" (Py.replace newline "" (Py.join " " data)))
  end.

(* ===================================================================== *)
(** * [processing/superside.py]: class [Superside] *)
(* ===================================================================== *)

Section Superside.

(** The HTML parser behind [lxml.html.fromstring]. *)
Variable parse_html : string → result HtmlElement.

(** The body of the loop of [run]. *)
Definition process_file (self : BaseProcessing) (file : string) : M unit :=
  file_contents ← AWSS3.read_json file;
  content ← lift (Json.get file_contents "content");
  tree ← lift (Lxml.fromstring parse_html content);
  let title := extract_text_by_xpath tree sel_title in
  let description := extract_text_by_xpath tree sel_description in
  let texts := extract_text_by_xpath tree sel_texts in
  item_url ← lift (Json.get file_contents "url");
  now ← datetime_now;
  let item := Document item_url title description texts now in
  Mongo.replace_one (url item) item true.

Definition run (self : BaseProcessing) : M unit :=
  files ← AWSS3.list_files_from_path ("pages/" +:+ company self);
  match files with
  | None => raise TypeError            (* [for file in None] *)
  | Some files => for_each (process_file self) files
  end.

(** [Superside(company="Superside", ...)] followed by [run()]. *)
Definition main (full_load debug : bool) : M unit :=
  let superside := new_BaseProcessing "Superside" full_load debug in
  _ ← connect_mongodb superside;
  run superside.

End Superside.

(* ===================================================================== *)
(** * [crawler/spiders/superside.py]: class [SupersideSpider] *)
(* ===================================================================== *)

Record HtmlResponse : Type := { response_url : string; response_text : string }.

Module SupersideSpider.

Definition name : string := "Superside".

Definition page_name (response : HtmlResponse) : string :=
  Py.replace "/" "-" (Py.last_piece (Py.split "://" (response_url response))).

Definition page_name_cleaned (response : HtmlResponse) : string :=
  Py.map_chars (fun i => if Py.ord i <? 128 then i else "-"%char)
               (page_name response).

Definition file_path (response : HtmlResponse) : string :=
  "pages/" +:+ name +:+ "/" +:+ page_name_cleaned response +:+ ".json".

Definition parse_item (response : HtmlResponse) : M unit :=
  let item := JObj [("url", JStr (response_url response));
                    ("content", JStr (response_text response))] in
  AWSS3.save_dict_to_json item (file_path response).

End SupersideSpider.

(* ===================================================================== *)
(** * [chatbot/chatbot.py]: class [Chatbot] *)
(* ===================================================================== *)

Module Chatbot.

(** A row of the data frame that [get_company_data] returns. *)
Record row : Type := Row { row_url : json; row_text : string }.

(** What a call of [get_company_data] comes to. *)
Inductive frame : Type :=
| RaiseKeyError          (* [.loc[:, [...]]] on a frame that has no columns *)
| Frame (rows : list row).

(** [isna] on the columns [url], [title], [description] and [texts]. *)
Definition notna (d : document) : bool :=
  match url d with
  | JNull => false
  | _ => match title d, description d, texts d with
         | Some _, Some _, Some _ => true
         | _, _, _ => false
         end
  end.

(** [.dropna()] *)
Definition dropna (data : list document) : list document :=
  filter (fun d => notna d = true) data.

(** [.assign(text=...)] followed by [.loc[:, ["url", "text"]]], on one row:
    the three strings are concatenated behind their labels. *)
Definition assign_text (d : document) : option row :=
  match title d, description d, texts d with
  | Some t, Some de, Some tx =>
      Some (Row (url d)
                ("Title: " +:+ t +:+ newline +:+ "Description: " +:+ de
                 +:+ newline +:+ "Content: " +:+ tx))
  | _, _, _ => None
  end.

Definition get_company_data (w : world) : frame :=
  let data := collection w in
  match data with
  | [] => RaiseKeyError
  | _ => Frame (omap assign_text (dropna data))
  end.

(** The state of the Gradio application: the list [chat_history] of the
    enclosing scope, and the requests that went to the chain [qa]. *)
Record app : Type := App {
  chat_history : list (string * string);
  requests : list (string * list (string * string))
}.

(** [chat_history = []] *)
Definition initial_app : app := App [] [].

Section Session.
(** The chain is outside the program: [answer n question history] is its
    answer to request number [n]. *)
Variable answer : nat → string → list (string * string) → string.

(** The callback [user(user_message, history)]; it returns the new value
    of the text box and the history to display. *)
Definition user (user_message : string) (history : list (string * string)) (a : app)
  : (string * list (string * string)) * app :=
  let chat_history_tuples :=
    map (fun message : string * string => (message.1, message.2)) (chat_history a) in
  let response := answer (length (requests a)) user_message chat_history_tuples in
  let history := history ++ [(user_message, response)] in
  (("", history),
   App (chat_history a) (requests a ++ [(user_message, chat_history_tuples)])).

(** Messages submitted one after the other; every call gets the history
    that the call before it returned. *)
Fixpoint submit_all (messages : list string) (history : list (string * string))
    (a : app) : list (string * string) * app :=
  match messages with
  | [] => (history, a)
  | m :: rest =>
      let '((_, history'), a') := user m history a in
      submit_all rest history' a'
  end.
End Session.

End Chatbot.

(* ===================================================================== *)
(** * Vocabulary of the statements *)
(* ===================================================================== *)

(** [c in s] for a single character. *)
Fixpoint has_char (c : ascii) (s : string) : bool :=
  match s with
  | "" => false
  | String a r => bool_decide (a = c) || has_char c r
  end.

(** What [SupersideSpider.page_name_cleaned] does to one character. *)
Definition sanitize (c : ascii) : ascii :=
  if decide (c = "/"%char) then "-"%char
  else if Py.ord c <? 128 then c else "-"%char.

(** [v] is stored under [key] in some dictionary of [document]. *)
Inductive occurs (key : string) (v : json) : json → Prop :=
  | occurs_here fields :
      (key, v) ∈ fields → occurs key v (JObj fields)
  | occurs_field fields k d :
      (k, d) ∈ fields → occurs key v d → occurs key v (JObj fields)
  | occurs_item items d :
      d ∈ items → occurs key v d → occurs key v (JArr items).

(** No element below [n] (or [n] itself) matches the element step of the
    path: the tag that the selector looks for is absent. *)
Fixpoint tag_absent (sel : Lxml.selector) (n : HtmlElement) : bool :=
  match n with
  | Text _ => true
  | Element tag attrib children =>
      negb (Lxml.step_matches sel tag attrib) && forallb (tag_absent sel) children
  end.

(** What [extract_text_by_xpath] makes of the strings a selector found. *)
Definition joined (data : list string) : string :=
  Py.replace "&nbsp;" "" (Py.replace newline "" (Py.join " " data)).

(** The url that the capture under [file] carries, when the key holds a
    JSON dictionary. *)
Definition capture_url (w : world) (file : string) : option json :=
  match AWSS3.read_json file w with
  | (Ok file_contents, _) =>
      match Json.get file_contents "url" with
      | Ok u => Some u
      | Raise _ => None
      end
  | (Raise _, _) => None
  end.

(** An lxml that is known on the listed documents only. *)
Definition parse_known (pages : list (string * HtmlElement)) (s : string)
  : result HtmlElement :=
  match list_find (fun p => p.1 = s) pages with
  | Some (_, (_, tree)) => Ok tree
  | None => Raise ParserError
  end.

(** What lxml makes of three small documents. *)
Definition known_pages : list (string * HtmlElement) :=
  [ ("<p>Hi</p>",
     Element "html" [] [Element "body" [] [Element "p" [] [Text "Hi"]]]);
    ("<p>Bye</p>",
     Element "html" [] [Element "body" [] [Element "p" [] [Text "Bye"]]]);
    ("<head><meta name='description' content='About us'></head><p>Hello</p><p>World</p>",
     Element "html" []
       [Element "head" [] [Element "meta" [("name", "description");
                                            ("content", "About us")] []];
        Element "body" [] [Element "p" [] [Text "Hello"];
                           Element "p" [] [Text "World"]]]) ].

(** The world after a sequence of calls. *)
Definition after {A} (m : M A) (w : world) : world := (m w).2.

(** What the crawler stores for three fetched pages; the second one came
    with an empty body. *)
Definition three_captures : world :=
  after (_ ← SupersideSpider.parse_item
               {| response_url := "https://www.superside.com/a";
                  response_text := "<p>Hi</p>" |};
         _ ← SupersideSpider.parse_item
               {| response_url := "https://www.superside.com/b";
                  response_text := "" |};
         SupersideSpider.parse_item
           {| response_url := "https://www.superside.com/c";
              response_text := "<p>Bye</p>" |})
        (World ∅ [] 0).

(** Nesting depth of a value. *)
Fixpoint depth (v : json) : nat :=
  match v with
  | JArr items => S (foldr (fun x n => depth x `max` n) 0 items)
  | JObj fields => S (foldr (fun kv n => depth kv.2 `max` n) 0 fields)
  | _ => 1
  end.

(** The input behind a value does not go on like a numeral. *)
Definition delimited (rest : string) : Prop :=
  match rest with
  | "" => True
  | String c _ => Json.is_digit c = false ∧ Json.starts_frac_or_exp rest = false
  end.

(** The documents of the collection with a given [url]. *)
Definition with_url (u : json) (c : list document) : list document :=
  filter (fun d => json_eqb (url d) u = true) c.

(** A string of decimal digits. *)
Fixpoint all_digits (s : string) : bool :=
  match s with
  | "" => true
  | String c r => Json.is_digit c && all_digits r
  end.

(** The first character of a printed value is no white space and closes
    no container. *)
Definition value_start (c : ascii) : Prop :=
  Json.is_ws c = false ∧ c ≠ "]"%char ∧ c ≠ "}"%char.

(** The value scanner reads back what was printed, whatever follows. *)
Definition reads_back (scan_once : string → option (json * string)) (v : json) : Prop :=
  ∀ rest, delimited rest → scan_once (Json.dumps v +:+ rest) = Some (v, rest).

(** The collection after [replace_one(filter={"url": u}, item, upsert=True)]. *)
Definition upserted (u : json) (item : document) (c : list document) : list document :=
  match Mongo.replace_first u item c with
  | Some c' => c'
  | None => c ++ [item]
  end.

(** The document that the loop body builds from a capture. *)
Definition item_of (file_contents : json) (tree : HtmlElement) (now : nat) : document :=
  Document (default JNull (match file_contents with
                           | JObj d => Json.assoc "url" d
                           | _ => None
                           end))
           (extract_text_by_xpath tree sel_title)
           (extract_text_by_xpath tree sel_description)
           (extract_text_by_xpath tree sel_texts)
           now.

(** The world after the loop body went through for a capture. *)
Definition processed (file_contents : json) (tree : HtmlElement) (w : world) : world :=
  let item := item_of file_contents tree (clock w) in
  World (bucket w) (upserted (url item) item (collection w)) (S (clock w)).

(** No position of [s] starts a match of [<.*?>]. *)
Definition tag_free (s : string) : Prop :=
  ∀ y z, s = y +:+ z → Py.tag_pattern z = None.

(** The capture under [file] can be processed: the key holds a JSON
    dictionary whose ["content"] is a string that the parser accepts. *)
Definition processable (parse_html : string → result HtmlElement) (w : world)
    (file : string) : Prop :=
  ∃ file_contents text tree,
    AWSS3.read_json file w = (Ok file_contents, w)
    ∧ Json.get file_contents "content" = Ok (JStr text)
    ∧ parse_html text = Ok tree.

(** The texts that [extract_next_data] joins when every collected value
    that counts as true is a string. *)
Definition harvested (next_data : list json) : list string :=
  omap (fun v => match v with
                 | JStr s => if Json.truthy v then Some (cleanhtml (Py.strip s)) else None
                 | _ => None
                 end) next_data.

(** A key that the bucket takes: the client refuses the empty key, the
    store a key of more than [S3.max_key_bytes] bytes. *)
Definition storable_key (k : string) : Prop :=
  k ≠ "" ∧ String.length (Utf8.encode k) ≤ S3.max_key_bytes.

(** What the crawler stores for two fetched pages. *)
Definition two_captures : world :=
  after (_ ← SupersideSpider.parse_item
               {| response_url := "https://www.superside.com/a";
                  response_text := "<p>Hi</p>" |};
         SupersideSpider.parse_item
           {| response_url := "https://www.superside.com/c";
              response_text := "<p>Bye</p>" |})
        (World ∅ [] 0).

(* ===================================================================== *)
(** * Strings *)
(* ===================================================================== *)

Section StringFacts.

Lemma app_cons c (s t : string) : String c s +:+ t = String c (s +:+ t).
Proof. reflexivity. Qed.

Lemma app_empty_l (s : string) : "" +:+ s = s.
Proof. reflexivity. Qed.

Lemma app_empty_r (s : string) : s +:+ "" = s.
Proof. induction s as [|c s IH]; [done|]. by rewrite app_cons, IH. Qed.

Lemma app_assoc_str (a b c : string) : (a +:+ b) +:+ c = a +:+ (b +:+ c).
Proof. induction a as [|x a IH]; [done|]. by rewrite !app_cons, IH. Qed.

Lemma length_app_str (a b : string) :
  String.length (a +:+ b) = String.length a + String.length b.
Proof. induction a as [|x a IH]; [done|]. rewrite app_cons. simpl. by rewrite IH. Qed.

Lemma startswith_app (p s : string) : Py.startswith p (p +:+ s) = true.
Proof.
  induction p as [|c p IH]; [done|].
  rewrite app_cons. simpl. by rewrite decide_True.
Qed.

Lemma has_char_app c (a b : string) :
  has_char c (a +:+ b) = has_char c a || has_char c b.
Proof.
  induction a as [|x a IH]; [done|].
  rewrite app_cons. simpl. by rewrite IH, orb_assoc.
Qed.

End StringFacts.

(** Moves every concatenation behind the characters in front of it. *)
Ltac norm_str := repeat (rewrite app_cons || rewrite app_empty_l).
Ltac norm_str_in H := repeat (rewrite app_cons in H || rewrite app_empty_l in H).

(** ** The scan behind [str.replace] and [re.sub] *)

Section ScanFacts.
Variable matcher : string → option nat.
Variable repl : string.

(** A pending skip swallows exactly that many characters. *)
Lemma scan_skip (x s : string) :
  Py.scan matcher repl (String.length x) (x +:+ s) = Py.scan matcher repl 0 s.
Proof. induction x as [|c x IH]; [done|]. rewrite app_cons. simpl. exact IH. Qed.

(** A match at the head is replaced, and the scan goes on behind it. *)
Lemma scan_match (c : ascii) (x s : string) :
  matcher (String c x +:+ s) = Some (S (String.length x)) →
  Py.scan matcher repl 0 (String c x +:+ s) = repl +:+ Py.scan matcher repl 0 s.
Proof. intros Hm. rewrite app_cons in *. simpl. rewrite Hm. by rewrite scan_skip. Qed.

(** Where nothing matches, the text is kept. *)
Lemma scan_keep (x s : string) :
  (∀ y z, x = y +:+ z → z ≠ "" → matcher (z +:+ s) = None) →
  Py.scan matcher repl 0 (x +:+ s) = x +:+ Py.scan matcher repl 0 s.
Proof.
  induction x as [|c x IH]; intros Hno; [done|].
  rewrite !app_cons. simpl.
  rewrite <- app_cons, (Hno "" (String c x)) by done.
  f_equal. apply IH. intros y z -> Hz.
  apply (Hno (String c y) z); by rewrite ?app_cons.
Qed.
End ScanFacts.

(** ** [cleanhtml] *)

Section Cleanhtml.

Lemma lazy_dot_gt_span (span s : string) :
  has_char ">" span = false →
  has_char "010" span = false →
  Py.lazy_dot_gt (span +:+ String ">" s) = Some (S (String.length span)).
Proof.
  induction span as [|c span IH]; intros Hgt Hnl; [done|].
  simpl in Hgt, Hnl. apply orb_false_elim in Hgt as [Hc1 Hgt].
  apply orb_false_elim in Hnl as [Hc2 Hnl].
  apply bool_decide_eq_false in Hc1, Hc2.
  rewrite app_cons. simpl. rewrite !decide_False by done.
  by rewrite IH.
Qed.

Lemma lazy_dot_gt_newline (span s : string) :
  has_char ">" span = false →
  Py.lazy_dot_gt (span +:+ String "010" s) = None.
Proof.
  induction span as [|c span IH]; intros Hgt; [done|].
  simpl in Hgt. apply orb_false_elim in Hgt as [Hc Hgt].
  apply bool_decide_eq_false in Hc.
  rewrite app_cons. simpl. rewrite decide_False by done.
  case_decide; [done|]. by rewrite IH.
Qed.

(** A span from ["<"] to the next [">"] on the same line is removed. *)
Lemma cleanhtml_tag (span s : string) :
  has_char ">" span = false →
  has_char "010" span = false →
  cleanhtml ("<" +:+ span +:+ ">" +:+ s) = cleanhtml s.
Proof.
  intros Hgt Hnl. unfold cleanhtml, Py.re_sub.
  replace ("<" +:+ span +:+ ">" +:+ s) with (String "<" (span +:+ ">") +:+ s)
    by (by norm_str; rewrite app_assoc_str).
  rewrite scan_match; [done|].
  rewrite app_cons, app_assoc_str. norm_str. simpl.
  rewrite lazy_dot_gt_span by done.
  rewrite length_app_str. simpl. do 2 f_equal. lia.
Qed.

(** Text without ["<"] is kept. *)
Lemma cleanhtml_text (text s : string) :
  has_char "<" text = false →
  cleanhtml (text +:+ s) = text +:+ cleanhtml s.
Proof.
  intros Hlt. unfold cleanhtml, Py.re_sub. apply scan_keep.
  intros y [|c z] -> Hz; [done|].
  rewrite has_char_app in Hlt. apply orb_false_elim in Hlt as [_ Hlt].
  simpl in Hlt. apply orb_false_elim in Hlt as [Hc _].
  apply bool_decide_eq_false in Hc.
  rewrite app_cons. destruct c as [[] [] [] [] [] [] [] []]; try done.
Qed.

Lemma cleanhtml_empty : cleanhtml "" = "".
Proof. reflexivity. Qed.

(** An element whose tags hold neither [">"] nor a newline, around a
    text without ["<"], is reduced to the text. *)
Lemma cleanhtml_element (open close text : string) :
  has_char ">" open = false → has_char "010" open = false →
  has_char ">" close = false → has_char "010" close = false →
  has_char "<" text = false →
  cleanhtml ("<" +:+ open +:+ ">" +:+ text +:+ "<" +:+ close +:+ ">") = text.
Proof.
  intros. rewrite cleanhtml_tag by done.
  rewrite cleanhtml_text by done.
  rewrite <- (app_empty_r ">"), cleanhtml_tag by done.
  by rewrite cleanhtml_empty, app_empty_r.
Qed.

(** A ["<"] whose line ends before the next [">"] starts no match: the
    character is kept and the scan goes on behind it. *)
Lemma cleanhtml_broken_tag (span s : string) :
  has_char ">" span = false →
  cleanhtml ("<" +:+ span +:+ newline +:+ s)
  = "<" +:+ cleanhtml (span +:+ newline +:+ s).
Proof.
  intros Hgt. unfold cleanhtml, Py.re_sub, newline. norm_str. simpl.
  by rewrite lazy_dot_gt_newline.
Qed.

End Cleanhtml.

(** C7 — [cleanhtml("<div>Test</div>")] is ["Test"], but a tag that is
    broken over two lines is not removed: the pattern [<.*?>] stops at a
    newline, so for ["<a\nhref='x'>text</a>"] only the closing tag goes
    and the result is not ["text"]. *)
Theorem cleanhtml_keeps_multiline_tag :
  cleanhtml "<div>Test</div>" = "Test"
  ∧ cleanhtml ("<a" +:+ newline +:+ "href='x'>text</a>")
    = "<a" +:+ newline +:+ "href='x'>text"
  ∧ cleanhtml ("<a" +:+ newline +:+ "href='x'>text</a>") ≠ "text".
Proof. split; [|split]; [reflexivity..|discriminate]. Qed.

(* ===================================================================== *)
(** * [json.loads] inverts [json.dumps] *)
(* ===================================================================== *)

Section JsonInduction.
Variable P : json → Prop.
Hypothesis Hnull : P JNull.
Hypothesis Hbool : ∀ b, P (JBool b).
Hypothesis Hint : ∀ n, P (JInt n).
Hypothesis Hstr : ∀ s, P (JStr s).
Hypothesis Harr : ∀ items, Forall P items → P (JArr items).
Hypothesis Hobj : ∀ fields, Forall (fun kv => P kv.2) fields → P (JObj fields).

(** Induction over a value and, inside it, over its items. *)
Lemma json_nested_ind : ∀ v, P v.
Proof.
  fix IH 1. intros [| b | n | s | items | fields].
  - exact Hnull.
  - apply Hbool.
  - apply Hint.
  - apply Hstr.
  - apply Harr. induction items as [|x items IHl]; constructor;
      [apply IH | exact IHl].
  - apply Hobj. induction fields as [|[k x] fields IHl]; constructor;
      [apply IH | exact IHl].
Qed.
End JsonInduction.

Lemma wf_json_arr items : wf_json (JArr items) ↔ Forall wf_json items.
Proof.
  induction items as [|x items IH]; simpl.
  - split; [constructor | done].
  - rewrite Forall_cons. simpl in IH. by rewrite IH.
Qed.

Lemma wf_json_obj fields :
  wf_json (JObj fields)
  ↔ NoDup (map fst fields) ∧ Forall (fun kv => wf_json kv.2) fields.
Proof.
  simpl. apply and_iff_compat_l.
  induction fields as [|[k x] fields IH]; simpl.
  - split; [constructor | done].
  - rewrite Forall_cons. simpl. by rewrite IH.
Qed.

Section Numerals.

Lemma string_of_uint_digits u : all_digits (NilEmpty.string_of_uint u) = true.
Proof. induction u; simpl; auto. Qed.

Lemma span_digits_delimited rest :
  delimited rest → Json.span_digits rest = ("", rest).
Proof. destruct rest as [|c r]; [done|]. intros [Hc _]. simpl. by rewrite Hc. Qed.

Lemma span_digits_app ds rest :
  all_digits ds = true → delimited rest →
  Json.span_digits (ds +:+ rest) = (ds, rest).
Proof.
  intros Hds Hrest. induction ds as [|c ds IH]; simpl.
  - by apply span_digits_delimited.
  - simpl in Hds. apply andb_prop in Hds as [Hc Hds].
    by rewrite Hc, IH.
Qed.

Lemma delimited_no_frac rest : delimited rest → Json.starts_frac_or_exp rest = false.
Proof. destruct rest; [done|]. by intros [_ ?]. Qed.

(** The decimal form of a positive number has no leading zero. *)
Lemma to_uint_no_leading_zero p u : Pos.to_uint p ≠ Decimal.D0 u.
Proof.
  intros Heq.
  pose proof (DecimalN.Unsigned.to_of (Pos.to_uint p)) as Hn.
  change (Pos.to_uint p) with (N.to_uint (Npos p)) in Hn at 1.
  rewrite DecimalN.Unsigned.of_to in Hn. simpl in Hn.
  pose proof (DecimalPos.Unsigned.to_uint_nonzero p) as Hnz.
  unfold Decimal.unorm in Hn.
  destruct (Decimal.nzhead (Pos.to_uint p)) eqn:Hh;
    try (rewrite Hn in Heq; discriminate).
  - by rewrite Hn in Hnz.
  - rewrite Hn in Hh. by apply DecimalFacts.nzhead_nonzero in Hh.
Qed.

Lemma scan_digits_uint (neg : bool) u rest :
  u ≠ Decimal.Nil →
  (∀ u', u = Decimal.D0 u' → u' = Decimal.Nil) →
  delimited rest →
  Json.scan_digits neg (NilEmpty.string_of_uint u +:+ rest)
  = Some (if neg then (- Z.of_uint u)%Z else Z.of_uint u, rest).
Proof.
  intros Hnil Hzero Hrest. unfold Json.scan_digits.
  rewrite span_digits_app by auto using string_of_uint_digits.
  pose proof (NilEmpty.usu u) as Husu.
  destruct u; try done;
    try (simpl in *; rewrite delimited_no_frac by done; simpl;
         rewrite Husu; reflexivity).
  rewrite (Hzero u) in * by done. simpl.
  by rewrite delimited_no_frac.
Qed.

Lemma of_uint_to_uint p : Z.of_uint (Pos.to_uint p) = Zpos p.
Proof. exact (DecimalZ.of_to (Zpos p)). Qed.

Lemma scan_int_dumps n rest :
  delimited rest → Json.scan_int (Json.dumps_int n +:+ rest) = Some (n, rest).
Proof.
  intros Hrest. unfold Json.dumps_int.
  destruct n as [|p|p]; simpl.
  - change ("0" +:+ rest)
      with (NilEmpty.string_of_uint (Decimal.D0 Decimal.Nil) +:+ rest).
    rewrite scan_digits_uint; naive_solver.
  - pose proof (DecimalPos.Unsigned.to_uint_nonnil p) as Hnil.
    pose proof (to_uint_no_leading_zero p) as Hz.
    pose proof (scan_digits_uint false (Pos.to_uint p) rest Hnil) as Hs.
    rewrite of_uint_to_uint in Hs.
    destruct (Pos.to_uint p) eqn:Hu; try done;
      try (apply Hs; [done | done]).
    by destruct (Hz u).
  - rewrite scan_digits_uint;
      [by rewrite of_uint_to_uint
      | apply DecimalPos.Unsigned.to_uint_nonnil
      | intros u' Hu'; by destruct (to_uint_no_leading_zero p u')
      | done].
Qed.

(** The first character of a numeral is a digit or the minus sign. *)
Lemma dumps_int_head n :
  ∃ c s, Json.dumps_int n = String c s ∧ (Json.is_digit c = true ∨ c = "-"%char).
Proof.
  unfold Json.dumps_int. destruct n as [|p|p]; simpl.
  - by eexists _, _; split; [|left].
  - pose proof (DecimalPos.Unsigned.to_uint_nonnil p).
    destruct (Pos.to_uint p); try done; simpl;
      by eexists _, _; split; [|left].
  - by eexists _, _; split; [|right].
Qed.

End Numerals.

Section JsonStrings.

(** Behind the escape of one character the scanner finds that character. *)
Lemma scanstring_escape_char c t :
  Json.scanstring (Json.escape_char c +:+ t)
  = '(u, rest) ← Json.scanstring t; Some (String c u, rest).
Proof. destruct c as [[] [] [] [] [] [] [] []]; reflexivity. Qed.

Lemma scanstring_escape s rest :
  Json.scanstring (Json.escape s +:+ String Json.quote rest) = Some (s, rest).
Proof.
  induction s as [|c s IH]; [done|].
  simpl Json.escape. rewrite app_assoc_str, scanstring_escape_char, IH.
  reflexivity.
Qed.

Lemma dumps_str_app s rest :
  Json.dumps_str s +:+ rest
  = String Json.quote (Json.escape s +:+ String Json.quote rest).
Proof. unfold Json.dumps_str. by rewrite app_cons, app_assoc_str. Qed.

Lemma escape_char_nonempty c : Json.escape_char c ≠ "".
Proof. destruct c as [[] [] [] [] [] [] [] []]; discriminate. Qed.

End JsonStrings.

Section JsonRoundTrip.

Lemma dumps_head v : ∃ c s, Json.dumps v = String c s ∧ value_start c.
Proof.
  destruct v as [| [] | n | s | items | fields];
    try (by eexists _, _; split; [reflexivity | repeat split]).
  destruct (dumps_int_head n) as (c & s & Hs & Hc).
  exists c, s. split; [done|].
  destruct Hc as [Hc | ->]; [|by repeat split].
  repeat split; try (intros ->; done).
  destruct c as [[] [] [] [] [] [] [] []]; done.
Qed.

Lemma skip_ws_start c s : Json.is_ws c = false → Json.skip_ws (String c s) = String c s.
Proof. intros Hc. simpl. by rewrite Hc. Qed.

Lemma skip_ws_dumps v rest : Json.skip_ws (Json.dumps v +:+ rest) = Json.dumps v +:+ rest.
Proof.
  destruct (dumps_head v) as (c & s & -> & Hc & _).
  rewrite app_cons. by apply skip_ws_start.
Qed.

Lemma dumps_elems_cons x y l :
  Json.dumps_elems (x :: y :: l) = Json.dumps x +:+ ", " +:+ Json.dumps_elems (y :: l).
Proof. reflexivity. Qed.

Lemma dumps_members_cons k x kv l :
  Json.dumps_members ((k, x) :: kv :: l)
  = Json.dumps_str k +:+ ": " +:+ Json.dumps x +:+ ", " +:+ Json.dumps_members (kv :: l).
Proof. reflexivity. Qed.

Lemma dumps_arr items : Json.dumps (JArr items) = "[" +:+ Json.dumps_elems items +:+ "]".
Proof. reflexivity. Qed.

Lemma dumps_obj fields :
  Json.dumps (JObj fields) = "{" +:+ Json.dumps_members fields +:+ "}".
Proof. reflexivity. Qed.

Lemma skip_ws_elems l rest :
  l ≠ [] → Json.skip_ws (Json.dumps_elems l +:+ rest) = Json.dumps_elems l +:+ rest.
Proof.
  destruct l as [|x [|y l]]; [done|..]; intros _.
  - apply skip_ws_dumps.
  - rewrite dumps_elems_cons, app_assoc_str. apply skip_ws_dumps.
Qed.

Lemma skip_ws_members l rest :
  l ≠ [] → Json.skip_ws (Json.dumps_members l +:+ rest) = Json.dumps_members l +:+ rest.
Proof.
  destruct l as [|[k x] [|kv l]]; [done|..]; intros _.
  - simpl Json.dumps_members. by rewrite app_assoc_str, dumps_str_app.
  - by rewrite dumps_members_cons, app_assoc_str, dumps_str_app.
Qed.

#[local] Arguments Json.dumps_elems : simpl never.
#[local] Arguments Json.dumps_members : simpl never.
#[local] Arguments Json.dumps : simpl never.

Lemma scan_array_dumps scan_once items rest :
  items ≠ [] →
  Forall (reads_back scan_once) items →
  ∀ fuel, length items ≤ fuel →
  Json.scan_array scan_once fuel (Json.dumps_elems items +:+ "]" +:+ rest)
  = Some (items, rest).
Proof.
  intros Hne Hall. induction Hall as [|x l Hx Hl IH]; [done|].
  intros [|fuel] Hfuel; [simpl in Hfuel; lia|].
  destruct l as [|y l].
  - change (Json.dumps_elems [x]) with (Json.dumps x).
    simpl. rewrite Hx by done. simpl. norm_str. reflexivity.
  - rewrite dumps_elems_cons, !app_assoc_str. simpl.
    rewrite Hx by done. simpl. norm_str.
    rewrite skip_ws_elems by done.
    rewrite IH; [done | done | simpl in *; lia].
Qed.

Lemma dict_set_fresh k v d :
  k ∉ map fst d → Json.dict_set k v d = d ++ [(k, v)].
Proof.
  induction d as [|[k' v'] d IH]; [done|].
  simpl. intros Hk. apply not_elem_of_cons in Hk as [Hne Hk].
  rewrite decide_False by done. by rewrite IH.
Qed.

Lemma dict_of_pairs_nodup pairs :
  NoDup (map fst pairs) → Json.dict_of_pairs pairs = pairs.
Proof.
  unfold Json.dict_of_pairs.
  enough (∀ acc, NoDup (map fst (acc ++ pairs)) →
                 fold_left (fun d kv => Json.dict_set kv.1 kv.2 d) pairs acc
                 = acc ++ pairs) as H by (intros; by apply (H [])).
  induction pairs as [|[k v] pairs IH]; intros acc Hnd; simpl.
  - by rewrite app_nil_r.
  - rewrite dict_set_fresh.
    + rewrite IH; rewrite <- app_assoc; done.
    + rewrite map_app in Hnd. simpl in Hnd.
      apply NoDup_app in Hnd as (_ & Hdisj & _).
      intros Hin. apply (Hdisj k Hin). left.
Qed.

Lemma scan_object_dumps scan_once fields rest :
  fields ≠ [] →
  Forall (fun kv => reads_back scan_once kv.2) fields →
  ∀ fuel, length fields ≤ fuel →
  Json.scan_object scan_once fuel (Json.dumps_members fields +:+ "}" +:+ rest)
  = Some (fields, rest).
Proof.
  intros Hne Hall. induction Hall as [|[k x] l Hx Hl IH]; [done|].
  intros [|fuel] Hfuel; [simpl in Hfuel; lia|].
  destruct l as [|kv l].
  - change (Json.dumps_members [(k, x)])
      with (Json.dumps_str k +:+ ": " +:+ Json.dumps x).
    rewrite !app_assoc_str, dumps_str_app.
    simpl.
    rewrite scanstring_escape. simpl. norm_str.
    rewrite skip_ws_dumps, Hx by done. simpl. norm_str. reflexivity.
  - rewrite dumps_members_cons, !app_assoc_str, dumps_str_app.
    simpl.
    rewrite scanstring_escape. simpl. norm_str.
    rewrite skip_ws_dumps, Hx by done. simpl. norm_str.
    rewrite skip_ws_members by done.
    rewrite IH; [done | done | simpl in *; lia].
Qed.

Lemma dumps_nonempty v : 1 ≤ String.length (Json.dumps v).
Proof. destruct (dumps_head v) as (c & s & -> & _). simpl. lia. Qed.

Lemma length_elems l : length l ≤ String.length (Json.dumps_elems l).
Proof.
  induction l as [|x [|y l] IH]; [done|..].
  - apply dumps_nonempty.
  - rewrite dumps_elems_cons, !length_app_str.
    pose proof (dumps_nonempty x). simpl in *. lia.
Qed.

Lemma length_members l : length l ≤ String.length (Json.dumps_members l).
Proof.
  induction l as [|[k x] [|kv l] IH]; [done|..].
  - change (Json.dumps_members [(k, x)])
      with (Json.dumps_str k +:+ ": " +:+ Json.dumps x).
    rewrite !length_app_str. simpl. lia.
  - rewrite dumps_members_cons, !length_app_str. simpl in *. lia.
Qed.

Lemma elems_head l rest :
  l ≠ [] → ∃ c s, Json.dumps_elems l +:+ rest = String c s ∧ value_start c.
Proof.
  destruct l as [|x l]; [done|]. intros _.
  destruct (dumps_head x) as (c & s & Hx & Hc).
  destruct l as [|y l].
  - change (Json.dumps_elems [x]) with (Json.dumps x).
    rewrite Hx, app_cons. eauto.
  - rewrite dumps_elems_cons, Hx, !app_cons. eauto.
Qed.

Lemma members_head l rest :
  l ≠ [] → ∃ s, Json.dumps_members l +:+ rest = String Json.quote s.
Proof.
  destruct l as [|[k x] [|kv l]]; [done|..]; intros _.
  - change (Json.dumps_members [(k, x)])
      with (Json.dumps_str k +:+ ": " +:+ Json.dumps x).
    rewrite app_assoc_str, dumps_str_app. eauto.
  - rewrite dumps_members_cons, app_assoc_str, dumps_str_app. eauto.
Qed.

Lemma depth_items items fuel :
  depth (JArr items) ≤ S fuel → Forall (fun x => depth x ≤ fuel) items.
Proof.
  simpl. intros H. apply le_S_n in H.
  induction items as [|x items IH]; constructor; simpl in H; [lia|].
  apply IH. lia.
Qed.

Lemma depth_fields fields fuel :
  depth (JObj fields) ≤ S fuel → Forall (fun kv => depth kv.2 ≤ fuel) fields.
Proof.
  simpl. intros H. apply le_S_n in H.
  induction fields as [|x fields IH]; constructor; simpl in H; [lia|].
  apply IH. lia.
Qed.

Lemma depth_pos v : 1 ≤ depth v.
Proof. destruct v; simpl; lia. Qed.

Lemma scan_value_array fuel r :
  Json.scan_value (S fuel) (String "[" r)
  = match Json.skip_ws r with
    | "" => None
    | String c' r' as r1 =>
        if decide (c' = "]"%char) then Some (JArr [], r')
        else '(vs, rest) ← Json.scan_array (Json.scan_value fuel) (String.length r1) r1;
             Some (JArr vs, rest)
    end.
Proof. reflexivity. Qed.

Lemma scan_value_object fuel r :
  Json.scan_value (S fuel) (String "{" r)
  = match Json.skip_ws r with
    | "" => None
    | String c' r' as r1 =>
        if decide (c' = "}"%char) then Some (JObj [], r')
        else '(kvs, rest) ← Json.scan_object (Json.scan_value fuel) (String.length r1) r1;
             Some (JObj (Json.dict_of_pairs kvs), rest)
    end.
Proof. reflexivity. Qed.

(** With fuel for its depth, the scanner reads a printed value back and
    stops right behind it. *)
Lemma scan_value_dumps v :
  wf_json v → ∀ fuel, depth v ≤ fuel → reads_back (Json.scan_value fuel) v.
Proof.
  induction v as [| b | n | s | items IH | fields IH] using json_nested_ind;
    intros Hwf [|fuel] Hfuel rest Hrest;
    try (pose proof (depth_pos JNull); simpl in Hfuel; lia).
  - reflexivity.
  - by destruct b.
  - destruct (dumps_int_head n) as (c & t & Ht & Hc).
    change (Json.dumps (JInt n)) with (Json.dumps_int n).
    pose proof (scan_int_dumps n rest Hrest) as Hscan.
    rewrite Ht, app_cons in *. unfold Json.scan_value.
    rewrite !decide_False
      by (intros Heq; destruct Hc as [Hc | Hc]; rewrite Heq in Hc;
          vm_compute in Hc; discriminate).
    by rewrite Hscan.
  - change (Json.dumps (JStr s)) with (Json.dumps_str s).
    rewrite dumps_str_app. simpl. by rewrite scanstring_escape.
  - rewrite dumps_arr, !app_assoc_str. norm_str.
    apply wf_json_arr in Hwf. apply depth_items in Hfuel.
    destruct items as [|x items]; [reflexivity|].
    destruct (elems_head (x :: items) (String "]" rest))
      as (c & t & Ht & Hws & Hc & _); [done|].
    rewrite scan_value_array, skip_ws_elems, Ht by done.
    rewrite decide_False by done. rewrite <- Ht.
    change (String "]" rest) with ("]" +:+ rest).
    rewrite scan_array_dumps; [done | done | |].
    + rewrite !Forall_forall in *. intros y Hy. apply IH; auto.
    + rewrite length_app_str. pose proof (length_elems (x :: items)). lia.
  - rewrite dumps_obj, !app_assoc_str. norm_str.
    apply wf_json_obj in Hwf as [Hnd Hwf]. apply depth_fields in Hfuel.
    destruct fields as [|kv fields]; [reflexivity|].
    destruct (members_head (kv :: fields) (String "}" rest)) as (t & Ht); [done|].
    rewrite scan_value_object, skip_ws_members, Ht by done.
    rewrite decide_False by done. rewrite <- Ht.
    change (String "}" rest) with ("}" +:+ rest).
    rewrite scan_object_dumps; [by simpl; rewrite dict_of_pairs_nodup | done | |].
    + rewrite !Forall_forall in *. intros y Hy. apply IH; auto.
    + rewrite length_app_str. pose proof (length_members (kv :: fields)). lia.
Qed.

Lemma depth_le_length v : depth v ≤ String.length (Json.dumps v).
Proof.
  induction v as [| b | n | s | items IH | fields IH] using json_nested_ind;
    try apply dumps_nonempty.
  - rewrite dumps_arr, !length_app_str. simpl.
    enough (foldr (fun x n => depth x `max` n) 0 items
            ≤ String.length (Json.dumps_elems items)) by lia.
    induction IH as [|x [|y l] Hx Hl IHl]; [done|..].
    + change (Json.dumps_elems [x]) with (Json.dumps x). simpl in *. lia.
    + rewrite dumps_elems_cons, !length_app_str. simpl in *. lia.
  - rewrite dumps_obj, !length_app_str. simpl.
    enough (foldr (fun kv n => depth kv.2 `max` n) 0 fields
            ≤ String.length (Json.dumps_members fields)) by lia.
    induction IH as [|[k x] [|kv l] Hx Hl IHl]; [done|..].
    + change (Json.dumps_members [(k, x)])
        with (Json.dumps_str k +:+ ": " +:+ Json.dumps x).
      rewrite !length_app_str. simpl in *. lia.
    + rewrite dumps_members_cons, !length_app_str. simpl in *. lia.
Qed.

(** [json.loads(json.dumps(v)) == v] *)
Lemma loads_dumps v : wf_json v → Json.loads (Json.dumps v) = Ok v.
Proof.
  intros Hwf. unfold Json.loads.
  pose proof (skip_ws_dumps v "") as Hskip.
  pose proof (scan_value_dumps v Hwf (S (String.length (Json.dumps v)))) as Hscan.
  rewrite app_empty_r in Hskip. rewrite Hskip.
  specialize (Hscan ltac:(pose proof (depth_le_length v); lia) "" I).
  rewrite app_empty_r in Hscan. by rewrite Hscan.
Qed.

End JsonRoundTrip.

(* ===================================================================== *)
(** * The object store *)
(* ===================================================================== *)

Section Utf8Facts.

Lemma decode_encode_char c t :
  Utf8.decode (Utf8.encode_char c +:+ t) = u ← Utf8.decode t; Ok (String c u).
Proof. destruct c as [[] [] [] [] [] [] [] []]; reflexivity. Qed.

(** [s.encode("utf-8").decode("utf-8") == s] *)
Lemma decode_encode s : Utf8.decode (Utf8.encode s) = Ok s.
Proof.
  induction s as [|c s IH]; [done|].
  simpl Utf8.encode. by rewrite decode_encode_char, IH.
Qed.

End Utf8Facts.

Section ObjectStore.

(** What [save_dict_to_json] does to the world, for a key that is not
    empty. *)
Lemma save_dict_to_json_world item path w :
  path ≠ "" →
  AWSS3.save_dict_to_json item path w
  = (Ok tt, World (<[path := Utf8.encode (Json.dumps item)]> (bucket w))
                  (collection w) (clock w)).
Proof. by destruct path. Qed.

(** The empty key is refused, and nothing is stored. *)
Lemma save_dict_to_json_empty_key item w :
  AWSS3.save_dict_to_json item "" w = (Raise ParamValidationError, w).
Proof. reflexivity. Qed.

(** [read_json] changes nothing. *)
Lemma read_json_world path w : (AWSS3.read_json path w).2 = w.
Proof.
  unfold AWSS3.read_json, S3.get_object, lift, mbind, M_bind.
  destruct (bucket w !! path) as [body|]; [|done].
  by destruct (Utf8.decode body).
Qed.

(** [read_json] on a key that holds the UTF-8 form of some text. *)
Lemma read_json_lookup path w text :
  bucket w !! path = Some (Utf8.encode text) →
  AWSS3.read_json path w = (Json.loads text, w).
Proof.
  intros Hb. unfold AWSS3.read_json, S3.get_object, lift, mbind, M_bind.
  by rewrite Hb, decode_encode.
Qed.

Lemma read_json_missing path w :
  bucket w !! path = None → AWSS3.read_json path w = (Raise NoSuchKey, w).
Proof.
  intros Hb. unfold AWSS3.read_json, S3.get_object, lift, mbind, M_bind.
  by rewrite Hb.
Qed.

(** A value that was saved is read back, whatever the key held before. *)
Lemma read_after_save item path w :
  path ≠ "" →
  wf_json item →
  AWSS3.read_json path (AWSS3.save_dict_to_json item path w).2
  = (Ok item, (AWSS3.save_dict_to_json item path w).2).
Proof.
  intros Hpath Hwf. rewrite save_dict_to_json_world by done. simpl.
  erewrite read_json_lookup by (simpl; apply lookup_insert_eq).
  by rewrite loads_dumps.
Qed.

(** Saving under one key leaves every other key alone. *)
Lemma save_other_key item path k w :
  k ≠ path →
  bucket (AWSS3.save_dict_to_json item path w).2 !! k = bucket w !! k.
Proof.
  intros Hk. destruct path; [done|]. simpl. by rewrite lookup_insert_ne.
Qed.

End ObjectStore.




(* ===================================================================== *)
(** * The crawler *)
(* ===================================================================== *)

Section Split.

Lemma map_chars_compose f g s :
  Py.map_chars f (Py.map_chars g s) = Py.map_chars (fun c => f (g c)) s.
Proof. induction s as [|c s IH]; [done|]. simpl. by rewrite IH. Qed.

Lemma map_chars_ext f g s :
  (∀ c, f c = g c) → Py.map_chars f s = Py.map_chars g s.
Proof. intros H. induction s as [|c s IH]; [done|]. simpl. by rewrite H, IH. Qed.

(** [s.replace("/", "-")] works character by character. *)
Lemma replace_slash s :
  Py.replace "/" "-" s
  = Py.map_chars (fun c => if decide (c = "/"%char) then "-"%char else c) s.
Proof.
  unfold Py.replace.
  set (m := fun t => if Py.startswith "/" t then Some (String.length "/") else None).
  induction s as [|c s IH]; [done|].
  assert (m (String c s) = if decide ("/"%char = c) then Some 1 else None) as Hm.
  { subst m. simpl. by case_decide. }
  change (Py.scan m "-" 0 (String c s))
    with (match m (String c s) with
          | Some (S k) => "-" +:+ Py.scan m "-" k s
          | _ => String c (Py.scan m "-" 0 s)
          end).
  rewrite Hm. simpl Py.map_chars.
  destruct (decide ("/"%char = c)) as [<-|Hc].
  - rewrite decide_True by done. norm_str. by rewrite IH.
  - rewrite decide_False by done. by rewrite IH.
Qed.

Lemma split_skip_nonempty sep k s : Py.split_skip sep k s ≠ [].
Proof.
  revert k. induction s as [|c s IH]; intros k; [done|].
  simpl. destruct k; [|apply IH].
  destruct (Py.startswith sep (String c s)); [done|].
  by destruct (Py.split_skip sep 0 s).
Qed.

Lemma split_skip_skip sep x s :
  Py.split_skip sep (String.length x) (x +:+ s) = Py.split_skip sep 0 s.
Proof. induction x as [|c x IH]; [done|]. exact IH. Qed.

(** Without an occurrence of the separator there is one piece. *)
Lemma split_no_occurrence sep s :
  Py.contains sep s = false → Py.split sep s = [s].
Proof.
  unfold Py.split. induction s as [|c s IH]; [done|].
  simpl. intros H. apply orb_false_elim in H as [Hhere Hlater].
  rewrite Hhere, IH; done.
Qed.

Lemma split_skip_cons sep c s :
  Py.split_skip sep 0 (String c s)
  = if Py.startswith sep (String c s)
    then "" :: Py.split_skip sep (String.length sep - 1) s
    else match Py.split_skip sep 0 s with
         | p :: ps => String c p :: ps
         | [] => [String c ""]
         end.
Proof. reflexivity. Qed.

(** Everything up to the last ["://"] goes into earlier pieces; the last
    piece is what follows it. *)
Lemma split_scheme_pieces a rest :
  Py.contains "://" rest = false →
  ∀ k, k ≤ String.length a →
  ∃ pieces, pieces ≠ []
            ∧ Py.split_skip "://" k (a +:+ "://" +:+ rest) = pieces ++ [rest].
Proof.
  intros Hrest. induction a as [|c a IH]; intros k Hk.
  - assert (k = 0) as -> by (simpl in Hk; lia).
    exists [""]. split; [done|]. norm_str. simpl.
    pose proof (split_no_occurrence "://" rest Hrest) as Hone.
    unfold Py.split in Hone. by rewrite Hone.
  - destruct k as [|k]; [|apply IH; simpl in Hk; lia].
    rewrite app_cons, split_skip_cons.
    change (String.length "://" - 1) with 2.
    destruct (Py.startswith "://" (String c (a +:+ "://" +:+ rest))) eqn:Hs.
    + assert (2 ≤ String.length a) as Hlen.
      { destruct a as [|c1 [|c2 a]]; [| |simpl; lia];
          norm_str_in Hs; simpl in Hs; repeat case_decide; done. }
      destruct (IH 2 Hlen) as (pieces & Hne & ->).
      by exists ("" :: pieces).
    + destruct (IH 0 ltac:(lia)) as (pieces & Hne & ->).
      destruct pieces as [|p pieces]; [done|].
      by exists (String c p :: pieces).
Qed.

Lemma last_piece_after_scheme a rest :
  Py.contains "://" rest = false →
  Py.last_piece (Py.split "://" (a +:+ "://" +:+ rest)) = rest.
Proof.
  intros Hrest.
  destruct (split_scheme_pieces a rest Hrest 0 ltac:(lia)) as (pieces & _ & Hp).
  unfold Py.last_piece, Py.split. rewrite Hp. apply last_last.
Qed.

End Split.

Section Crawler.

Lemma sanitize_compose c :
  (if Py.ord (if decide (c = "/"%char) then "-"%char else c) <? 128
   then if decide (c = "/"%char) then "-"%char else c
   else "-"%char) = sanitize c.
Proof. unfold sanitize. by case_decide. Qed.

(** The name of the capture of [scheme://rest]. *)
Lemma page_name_cleaned_spec scheme rest text :
  Py.contains "://" rest = false →
  SupersideSpider.page_name_cleaned
    {| response_url := scheme +:+ "://" +:+ rest; response_text := text |}
  = Py.map_chars sanitize rest.
Proof.
  intros Hrest. unfold SupersideSpider.page_name_cleaned, SupersideSpider.page_name.
  simpl response_url. rewrite last_piece_after_scheme, replace_slash by done.
  rewrite map_chars_compose. apply map_chars_ext, sanitize_compose.
Qed.

(** A URL without ["://"] is sanitized as a whole. *)
Lemma page_name_cleaned_no_scheme u text :
  Py.contains "://" u = false →
  SupersideSpider.page_name_cleaned {| response_url := u; response_text := text |}
  = Py.map_chars sanitize u.
Proof.
  intros Hu. unfold SupersideSpider.page_name_cleaned, SupersideSpider.page_name.
  simpl response_url. rewrite split_no_occurrence, replace_slash by done.
  rewrite map_chars_compose. apply map_chars_ext, sanitize_compose.
Qed.

(** The key depends on the URL only. *)
Lemma file_path_url r1 r2 :
  response_url r1 = response_url r2 →
  SupersideSpider.file_path r1 = SupersideSpider.file_path r2.
Proof.
  intros H. unfold SupersideSpider.file_path, SupersideSpider.page_name_cleaned,
    SupersideSpider.page_name. by rewrite H.
Qed.

Lemma capture_wf u text : wf_json (JObj [("url", JStr u); ("content", JStr text)]).
Proof.
  simpl. split; [|done].
  apply NoDup_cons. split; [|apply NoDup_singleton].
  intros Hin. apply list_elem_of_singleton in Hin. discriminate.
Qed.

(** The key of a capture is never the empty key. *)
Lemma file_path_nonempty response : SupersideSpider.file_path response ≠ "".
Proof. unfold SupersideSpider.file_path. discriminate. Qed.

(** What [parse_item] does to the world. *)
Lemma parse_item_world response w :
  SupersideSpider.parse_item response w
  = (Ok tt,
     World (<[SupersideSpider.file_path response :=
                Utf8.encode (Json.dumps
                  (JObj [("url", JStr (response_url response));
                         ("content", JStr (response_text response))]))]> (bucket w))
           (collection w) (clock w)).
Proof.
  unfold SupersideSpider.parse_item.
  apply save_dict_to_json_world, file_path_nonempty.
Qed.

End Crawler.




(* ===================================================================== *)
(** * Extraction *)
(* ===================================================================== *)

Section TreeInduction.
Variable P : HtmlElement → Prop.
Hypothesis Htext : ∀ s, P (Text s).
Hypothesis Helem : ∀ tag attrib children,
    Forall P children → P (Element tag attrib children).

Lemma tree_nested_ind : ∀ n, P n.
Proof.
  fix IH 1. intros [s | tag attrib children].
  - apply Htext.
  - apply Helem. induction children as [|c children IHc]; constructor;
      [apply IH | exact IHc].
Qed.
End TreeInduction.

Section XPath.

(** Outside a matching element, a tree without the tag yields nothing. *)
Lemma select_tag_absent sel n :
  tag_absent sel n = true → Lxml.select sel false n = [].
Proof.
  induction n as [s | tag attrib children IH] using tree_nested_ind; intros Habs.
  - simpl. by destruct (Lxml.sel_target sel).
  - simpl in Habs. apply andb_prop in Habs as [Hstep Hkids].
    apply negb_true_iff in Hstep. simpl. rewrite Hstep. simpl.
    assert (flat_map (Lxml.select sel false) children = []) as ->.
    { induction IH as [|c children Hc _ IHl]; [done|].
      simpl in Hkids. apply andb_prop in Hkids as [Hc' Hkids].
      simpl. by rewrite Hc, IHl. }
    by destruct (Lxml.sel_target sel).
Qed.

Lemma xpath_tag_absent sel tree :
  tag_absent sel tree = true → Lxml.xpath tree sel = [].
Proof. apply select_tag_absent. Qed.

Lemma extract_text_by_xpath_none tree selector :
  Lxml.xpath tree selector = [] → extract_text_by_xpath tree selector = None.
Proof. unfold extract_text_by_xpath. by intros ->. Qed.

Lemma extract_text_by_xpath_some tree selector :
  Lxml.xpath tree selector ≠ [] →
  extract_text_by_xpath tree selector = Some (joined (Lxml.xpath tree selector)).
Proof. unfold extract_text_by_xpath. by destruct (Lxml.xpath tree selector). Qed.

End XPath.

Section NestedLookup.

Lemma occurs_scalar key v d :
  occurs key v d → (∃ items, d = JArr items) ∨ (∃ fields, d = JObj fields).
Proof. destruct 1; eauto. Qed.

(** [nested_lookup] finds exactly the values stored under the key, at
    every depth. *)
Lemma nested_lookup_occurs key v d : v ∈ nested_lookup key d ↔ occurs key v d.
Proof.
  induction d as [| b | n | s | items IH | fields IH] using json_nested_ind;
    try (split; [by intros ?%elem_of_nil
                | by intros [[? ?]|[? ?]]%occurs_scalar]).
  - simpl. rewrite list_elem_of_In, in_flat_map.
    rewrite Forall_forall in IH. split.
    + intros (d & Hd & Hv). rewrite <- list_elem_of_In in Hd, Hv.
      apply (occurs_item _ _ _ d); [done|]. by apply IH.
    + inversion 1 as [| |? d Hd Hv]; subst.
      exists d. rewrite <- !list_elem_of_In. split; [done|]. by apply IH.
  - simpl. rewrite list_elem_of_In, in_flat_map.
    rewrite Forall_forall in IH. split.
    + intros ([k d] & Hd & Hv).
      apply list_elem_of_In in Hd. apply list_elem_of_In in Hv.
      simpl in Hv. apply elem_of_app in Hv as [Hv | Hv].
      * case_decide; [|by apply elem_of_nil in Hv].
        apply list_elem_of_singleton in Hv. subst. by apply occurs_here.
      * apply (occurs_field _ _ _ k d); [done|]. by apply (IH (k, d)).
    + inversion 1 as [? Hd | ? k d Hd Hv |]; subst.
      * exists (key, v). rewrite <- !list_elem_of_In. split; [done|].
        simpl. rewrite decide_True by done.
        apply elem_of_app. left. by apply list_elem_of_singleton.
      * exists (k, d). rewrite <- !list_elem_of_In. split; [done|].
        simpl. apply elem_of_app. right. by apply (IH (k, d)).
Qed.

Lemma next_data_of_unfold d :
  next_data_of d
  = nested_lookup "paragraph" d ++ nested_lookup "body" d ++ nested_lookup "content" d.
Proof. unfold next_data_of. by rewrite app_nil_l, <- app_assoc. Qed.

End NestedLookup.

(** C2 — When the tree has no [script] element with the id
    [__NEXT_DATA__], [extract_next_data] does not return [None]: the
    unguarded [xpath(...)[0]] raises [IndexError]. The sibling
    [extract_text_by_xpath] guards the same empty result and returns
    [None]. *)
Theorem missing_script_tag_raises (tree : HtmlElement) :
  tag_absent sel_next_data tree = true →
  extract_next_data tree = Raise IndexError
  ∧ extract_text_by_xpath tree sel_next_data = None.
Proof.
  intros Habs. apply xpath_tag_absent in Habs.
  unfold extract_next_data, extract_text_by_xpath. by rewrite Habs.
Qed.

Lemma missing_script_tag_raises_witness :
  let tree := Element "html" [] [Element "body" [] [Element "p" [] [Text "hi"]]] in
  extract_next_data tree = Raise IndexError
  ∧ extract_text_by_xpath tree sel_next_data = None.
Proof.
  apply (missing_script_tag_raises
           (Element "html" [] [Element "body" [] [Element "p" [] [Text "hi"]]])).
  reflexivity.
Defined.


(* ===================================================================== *)
(** * The document store *)
(* ===================================================================== *)

Section JsonEquality.

Lemma json_eqb_eq x : ∀ y, json_eqb x y = true ↔ x = y.
Proof.
  induction x as [| a | a | a | items IH | fields IH] using json_nested_ind;
    intros [| b | b | b | items' | fields']; simpl;
    try (split; [discriminate | discriminate]);
    try (rewrite bool_decide_eq_true; split; congruence).
  - done.
  - revert items'. induction IH as [|x l Hx _ IHl]; intros [|y l'];
      try (split; [discriminate | discriminate]); [done|].
    rewrite andb_true_iff, Hx, IHl. split; [intros [-> [= ->]]; done|].
    intros [= -> ->]. done.
  - revert fields'. induction IH as [|[k x] l Hx _ IHl]; intros [|[k' y] l'];
      try (split; [discriminate | discriminate]); [done|].
    rewrite !andb_true_iff, bool_decide_eq_true. simpl in Hx. rewrite Hx, IHl.
    split; [intros [[-> ->] [= ->]]; done|].
    intros [= -> -> ->]. done.
Qed.

Lemma json_eqb_refl x : json_eqb x x = true.
Proof. by apply json_eqb_eq. Qed.

Lemma json_eqb_neq x y : x ≠ y → json_eqb x y = false.
Proof.
  intros Hne. destruct (json_eqb x y) eqn:H; [|done].
  by apply json_eqb_eq in H.
Qed.

#[global] Instance json_eq_dec : EqDecision json.
Proof.
  intros x y. destruct (json_eqb x y) eqn:H.
  - left. by apply json_eqb_eq.
  - right. intros Heq. apply json_eqb_eq in Heq. congruence.
Defined.

End JsonEquality.

Section Collection.

Lemma replace_first_none u r c :
  u ∉ map url c → Mongo.replace_first u r c = None.
Proof.
  induction c as [|d c IH]; [done|].
  simpl. intros Hu. apply not_elem_of_cons in Hu as [Hne Hu].
  rewrite json_eqb_neq by done. by rewrite IH.
Qed.

Lemma replace_first_some u r c :
  u ∈ map url c →
  ∃ before old after,
    c = before ++ old :: after ∧ url old = u ∧ (u ∉ map url before)
    ∧ Mongo.replace_first u r c = Some (before ++ r :: after).
Proof.
  induction c as [|d c IH]; [by intros ?%elem_of_nil|].
  simpl. intros Hu. destruct (decide (url d = u)) as [Hd | Hd].
  - exists [], d, c. rewrite Hd, json_eqb_refl.
    split; [done|]. split; [done|]. split; [apply not_elem_of_nil | done].
  - apply elem_of_cons in Hu as [Hu | Hu]; [done|].
    destruct (IH Hu) as (before & old & after & -> & Hold & Hbefore & Hrep).
    exists (d :: before), old, after.
    rewrite json_eqb_neq, Hrep by done.
    split; [done|]. split; [done|]. split; [|done].
    simpl. apply not_elem_of_cons. split; [congruence | done].
Qed.

Lemma replace_one_world u item w :
  Mongo.replace_one u item true w
  = (Ok tt, World (bucket w) (upserted u item (collection w)) (clock w)).
Proof. reflexivity. Qed.

(** An upsert keyed by the url of the item keeps the urls distinct. *)
Lemma upserted_nodup item c :
  NoDup (map url c) → NoDup (map url (upserted (url item) item c)).
Proof.
  intros Hnd. unfold upserted.
  destruct (decide (url item ∈ map url c)) as [Hin | Hout].
  - destruct (replace_first_some _ item c Hin)
      as (before & old & after & -> & Hold & _ & ->).
    rewrite map_app in *. simpl in *. by rewrite Hold in Hnd.
  - rewrite replace_first_none by done.
    rewrite map_app. simpl. apply NoDup_app. split; [done|].
    split; [|apply NoDup_singleton].
    intros x Hx Hx'. apply list_elem_of_singleton in Hx'. by subst.
Qed.

Lemma upserted_elem item c : item ∈ upserted (url item) item c.
Proof.
  unfold upserted. destruct (decide (url item ∈ map url c)) as [Hin | Hout].
  - destruct (replace_first_some _ item c Hin) as (before & old & after & _ & _ & _ & ->).
    apply elem_of_app. right. apply list_elem_of_here.
  - rewrite replace_first_none by done. apply elem_of_app. right.
    apply list_elem_of_here.
Qed.

(** The urls on record are the old ones and the one of the item. *)
Lemma upserted_urls item c x :
  x ∈ map url (upserted (url item) item c) ↔ x = url item ∨ x ∈ map url c.
Proof.
  unfold upserted. destruct (decide (url item ∈ map url c)) as [Hin | Hout].
  - destruct (replace_first_some _ item c Hin)
      as (before & old & after & -> & Hold & _ & ->).
    rewrite !map_app. simpl. rewrite !elem_of_app, !elem_of_cons, Hold. tauto.
  - rewrite replace_first_none by done.
    rewrite map_app, elem_of_app. simpl. rewrite list_elem_of_singleton. tauto.
Qed.

(** A second upsert for the same url replaces and does not add. *)
Lemma upserted_length_known item c :
  url item ∈ map url c → length (upserted (url item) item c) = length c.
Proof.
  intros Hin. unfold upserted.
  destruct (replace_first_some _ item c Hin) as (before & old & after & -> & _ & _ & ->).
  by rewrite !length_app.
Qed.

Lemma upserted_length_new item c :
  url item ∉ map url c → length (upserted (url item) item c) = S (length c).
Proof.
  intros Hout. unfold upserted. rewrite replace_first_none by done.
  rewrite length_app. simpl. lia.
Qed.

Lemma with_url_absent u c : u ∉ map url c → with_url u c = [].
Proof.
  induction c as [|d c IH]; [done|].
  simpl. intros Hu. apply not_elem_of_cons in Hu as [Hne Hu].
  unfold with_url in *. rewrite filter_cons_False; [by apply IH|].
  by rewrite json_eqb_neq.
Qed.

(** With distinct urls, the documents with the url of [d] are [d] alone. *)
Lemma with_url_unique d c :
  NoDup (map url c) → d ∈ c → with_url (url d) c = [d].
Proof.
  induction c as [|x c IH]; [by intros _ ?%elem_of_nil|].
  simpl. intros Hnd Hd. apply NoDup_cons in Hnd as [Hx Hnd].
  unfold with_url in *. apply elem_of_cons in Hd as [-> | Hd].
  - rewrite filter_cons_True by apply json_eqb_refl.
    f_equal. by apply with_url_absent.
  - rewrite filter_cons_False; [by apply IH|].
    intros Heq%json_eqb_eq. apply Hx. rewrite Heq.
    by apply list_elem_of_fmap_2.
Qed.

End Collection.

(* ===================================================================== *)
(** * The batch driver *)
(* ===================================================================== *)

Section Driver.
Variable parse_html : string → result HtmlElement.
Variable self : BaseProcessing.

(** The loop body goes through when the key holds a JSON dictionary
    whose ["content"] is a string that the parser accepts. *)
Lemma process_file_ok file w file_contents text tree :
  AWSS3.read_json file w = (Ok file_contents, w) →
  Json.get file_contents "content" = Ok (JStr text) →
  parse_html text = Ok tree →
  process_file parse_html self file w = (Ok tt, processed file_contents tree w).
Proof.
  intros Hread Hcontent Hparse.
  unfold process_file, mbind, M_bind. rewrite Hread.
  unfold lift. rewrite Hcontent. simpl Lxml.fromstring. rewrite Hparse.
  destruct file_contents; try discriminate. reflexivity.
Qed.

(** In every other case it raises and leaves the world as it was. *)
Lemma process_file_cases file w :
  (∃ e, process_file parse_html self file w = (Raise e, w))
  ∨ (∃ file_contents text tree,
       AWSS3.read_json file w = (Ok file_contents, w)
       ∧ Json.get file_contents "content" = Ok (JStr text)
       ∧ parse_html text = Ok tree
       ∧ process_file parse_html self file w
         = (Ok tt, processed file_contents tree w)).
Proof.
  pose proof (read_json_world file w) as Hw.
  destruct (AWSS3.read_json file w) as [[fc | e] w'] eqn:Hread;
    simpl in Hw; subst w'.
  2: { left. exists e. unfold process_file, mbind, M_bind. by rewrite Hread. }
  destruct (Json.get fc "content") as [content | e] eqn:Hcontent.
  2: { left. exists e. unfold process_file, mbind, M_bind, lift.
       by rewrite Hread, Hcontent. }
  destruct (Lxml.fromstring parse_html content) as [tree | e] eqn:Htree.
  2: { left. exists e. unfold process_file, mbind, M_bind, lift.
       by rewrite Hread, Hcontent, Htree. }
  right. destruct content as [| | | text | |]; try discriminate.
  exists fc, text, tree. repeat split; try done.
  by apply (process_file_ok _ _ _ text).
Qed.

Lemma process_file_raise file w e w' :
  process_file parse_html self file w = (Raise e, w') → w' = w.
Proof.
  destruct (process_file_cases file w) as [[e' H] | (fc & text & tree & _ & _ & _ & H)];
    rewrite H; congruence.
Qed.

(** The loop body never writes to the bucket and keeps urls distinct. *)
Lemma process_file_invariant file w :
  let w' := (process_file parse_html self file w).2 in
  bucket w' = bucket w
  ∧ (NoDup (map url (collection w)) → NoDup (map url (collection w'))).
Proof.
  destruct (process_file_cases file w) as [[e H] | (fc & text & tree & _ & _ & _ & H)];
    rewrite H; [done|].
  split; [done|]. apply (upserted_nodup (item_of fc tree (clock w))).
Qed.

Lemma for_each_cons {A} (body : A → M unit) x l w :
  for_each body (x :: l) w
  = match body x w with
    | (Ok _, w') => for_each body l w'
    | (Raise e, w') => (Raise e, w')
    end.
Proof. reflexivity. Qed.

Lemma for_each_invariant files w :
  let w' := (for_each (process_file parse_html self) files w).2 in
  bucket w' = bucket w
  ∧ (NoDup (map url (collection w)) → NoDup (map url (collection w'))).
Proof.
  revert w. induction files as [|file files IH]; intros w; [done|].
  rewrite for_each_cons.
  pose proof (process_file_invariant file w) as [Hb Hnd].
  destruct (process_file parse_html self file w) as [[[] | e] w1]; simpl in *.
  - destruct (IH w1) as [Hb' Hnd']. split; [congruence | auto].
  - done.
Qed.

(** The loop stops at the first capture that fails. *)
Lemma for_each_stops {A} (body : A → M unit) pre x post w w1 e w2 :
  for_each body pre w = (Ok tt, w1) →
  body x w1 = (Raise e, w2) →
  for_each body (pre ++ x :: post) w = (Raise e, w2).
Proof.
  revert w. induction pre as [|y pre IH]; intros w Hpre Hx; simpl in *.
  - injection Hpre as <-. unfold mbind, M_bind. by rewrite Hx.
  - unfold mbind, M_bind in *. destruct (body y w) as [[[] | e'] w']; [|done].
    by apply IH.
Qed.

Lemma list_files_from_path_world path w :
  ∃ files, AWSS3.list_files_from_path path w = (Ok files, w).
Proof.
  unfold AWSS3.list_files_from_path, S3.list_objects_v2, mbind, M_bind, mret, M_ret.
  eauto.
Qed.

Lemma run_unfold w files :
  AWSS3.list_files_from_path ("pages/" +:+ company self) w = (Ok files, w) →
  run parse_html self w
  = match files with
    | None => (Raise TypeError, w)
    | Some files => for_each (process_file parse_html self) files w
    end.
Proof.
  intros Hlist. unfold run, mbind, M_bind. rewrite Hlist. by destruct files.
Qed.

(** No key with the prefix: the listing is [None]. *)
Lemma list_files_from_path_empty path w :
  (∀ k, is_Some (bucket w !! k) → Py.startswith path k = false) →
  AWSS3.list_files_from_path path w = (Ok None, w).
Proof.
  intros Hnone.
  unfold AWSS3.list_files_from_path, S3.list_objects_v2, S3.keys_with_prefix,
    mbind, M_bind, mret, M_ret.
  assert (filter (fun k => Py.startswith path k = true)
                 (map fst (map_to_list (bucket w))) = []) as ->; [|done].
  destruct (filter _ _) as [|k l] eqn:Hf; [done|].
  assert (k ∈ k :: l) as Hk by apply list_elem_of_here.
  rewrite <- Hf in Hk. apply list_elem_of_filter in Hk as [Hstart Hk].
  apply list_elem_of_fmap in Hk as ([k' v] & -> & Hin).
  apply elem_of_map_to_list in Hin.
  rewrite Hnone in Hstart; [done | by eexists].
Qed.

End Driver.

(** C8 — A selector that matches nothing gives [None] for its field, and
    nothing is raised; a selector that matches gives the joined matches.
    In the loop body of [run] the three fields are extracted independently
    of each other: whenever the capture parses, the call returns normally
    and upserts a document with the url of the capture in which each of
    [title], [description] and [texts] is [None] if its own selector
    matches nothing in the tree and the joined matches of its own selector
    otherwise, whatever the other two selectors find. So a tree without an
    [og:title] meta tag gives a document without title whose description
    and text are still there. *)
Theorem missing_selector_yields_absent_field
    (parse_html : string → result HtmlElement) (self : BaseProcessing)
    (file : string) (w : world) (file_contents : json) (text : string)
    (tree : HtmlElement) :
  (∀ selector, Lxml.xpath tree selector = [] →
               extract_text_by_xpath tree selector = None)
  ∧ (∀ selector, Lxml.xpath tree selector ≠ [] →
                 extract_text_by_xpath tree selector
                 = Some (joined (Lxml.xpath tree selector)))
  ∧ (AWSS3.read_json file w = (Ok file_contents, w) →
     Json.get file_contents "content" = Ok (JStr text) →
     parse_html text = Ok tree →
     (process_file parse_html self file w).1 = Ok tt
     ∧ ∃ item, item ∈ collection (process_file parse_html self file w).2
               ∧ Some (url item) = capture_url w file
               ∧ (Lxml.xpath tree sel_title = [] → title item = None)
               ∧ (Lxml.xpath tree sel_title ≠ [] →
                  title item = Some (joined (Lxml.xpath tree sel_title)))
               ∧ (Lxml.xpath tree sel_description = [] → description item = None)
               ∧ (Lxml.xpath tree sel_description ≠ [] →
                  description item = Some (joined (Lxml.xpath tree sel_description)))
               ∧ (Lxml.xpath tree sel_texts = [] → texts item = None)
               ∧ (Lxml.xpath tree sel_texts ≠ [] →
                  texts item = Some (joined (Lxml.xpath tree sel_texts)))).
Proof.
  split; [intros sel; apply extract_text_by_xpath_none|].
  split; [intros sel; apply extract_text_by_xpath_some|].
  intros Hread Hcontent Hparse.
  rewrite (process_file_ok parse_html self file w file_contents text tree) by done.
  split; [done|].
  exists (item_of file_contents tree (clock w)).
  split; [apply (upserted_elem (item_of file_contents tree (clock w)))|].
  split.
  { unfold capture_url. rewrite Hread.
    destruct file_contents; try discriminate. reflexivity. }
  simpl.
  repeat split; first [apply extract_text_by_xpath_none | apply extract_text_by_xpath_some].
Qed.

Lemma missing_selector_yields_absent_field_witness :
  let text := "<head><meta name='description' content='About us'></head><p>Hello</p><p>World</p>" in
  let capture := JObj [("url", JStr "https://www.superside.com/about");
                       ("content", JStr text)] in
  let file := "pages/Superside/www.superside.com-about.json" in
  let w := after (AWSS3.save_dict_to_json capture file) (World ∅ [] 7) in
  (process_file (parse_known known_pages)
                (new_BaseProcessing "Superside" false false) file w).1 = Ok tt
  ∧ ∃ item, item ∈ collection
              (process_file (parse_known known_pages)
                            (new_BaseProcessing "Superside" false false) file w).2
            ∧ url item = JStr "https://www.superside.com/about"
            ∧ title item = None
            ∧ description item = Some "About us"
            ∧ texts item = Some "Hello World".
Proof.
  intros text capture file w.
  destruct (missing_selector_yields_absent_field
              (parse_known known_pages) (new_BaseProcessing "Superside" false false)
              file w capture text
              (Element "html" []
                 [Element "head" [] [Element "meta" [("name", "description");
                                                      ("content", "About us")] []];
                  Element "body" [] [Element "p" [] [Text "Hello"];
                                     Element "p" [] [Text "World"]]]))
    as (_ & _ & Hrun).
  destruct Hrun as (Hok & item & Hin & Hurl & Htitle & _ & _ & Hdesc & _ & Htexts);
    [reflexivity | reflexivity | reflexivity |].
  split; [exact Hok|].
  exists item. split; [exact Hin|].
  split; [by injection Hurl|].
  split; [apply Htitle; reflexivity|].
  split; [apply Hdesc; discriminate | apply Htexts; discriminate].
Defined.

(** C10 — When no key of the bucket starts with [pages/<company>],
    [list_files_from_path] returns [None] and [run], which iterates over
    that result, raises [TypeError]; nothing has been processed. *)
Theorem run_fails_on_empty_namespace
    (parse_html : string → result HtmlElement) (self : BaseProcessing) (w : world) :
  (∀ k, is_Some (bucket w !! k) → Py.startswith ("pages/" +:+ company self) k = false) →
  AWSS3.list_files_from_path ("pages/" +:+ company self) w = (Ok None, w)
  ∧ run parse_html self w = (Raise TypeError, w).
Proof.
  intros Hnone. pose proof (list_files_from_path_empty _ w Hnone) as Hlist.
  split; [done|]. by rewrite (run_unfold parse_html self w None).
Qed.

Lemma run_fails_on_empty_namespace_witness :
  let self := new_BaseProcessing "Superside" false false in
  let w := World ∅ [] 0 in
  AWSS3.list_files_from_path ("pages/" +:+ company self) w = (Ok None, w)
  ∧ run (parse_known known_pages) self w = (Raise TypeError, w).
Proof.
  apply (run_fails_on_empty_namespace (parse_known known_pages)
           (new_BaseProcessing "Superside" false false) (World ∅ [] 0)).
  intros k [v Hv]. simpl in Hv. rewrite lookup_empty in Hv. discriminate.
Defined.

Section DriverFacts.
Variable parse_html : string → result HtmlElement.
Variable self : BaseProcessing.

(** Reading depends on the bucket only. *)
Lemma read_json_bucket file w1 w2 :
  bucket w1 = bucket w2 →
  (AWSS3.read_json file w1).1 = (AWSS3.read_json file w2).1.
Proof.
  intros Hb. unfold AWSS3.read_json, S3.get_object, lift, mbind, M_bind.
  rewrite Hb. destruct (bucket w2 !! file) as [body|]; [|done].
  by destruct (Utf8.decode body).
Qed.

Lemma read_json_same_bucket file w1 w2 v :
  bucket w1 = bucket w2 →
  AWSS3.read_json file w1 = (Ok v, w1) → AWSS3.read_json file w2 = (Ok v, w2).
Proof.
  intros Hb Hread. pose proof (read_json_bucket file w1 w2 Hb) as H1.
  pose proof (read_json_world file w2) as H2.
  rewrite Hread in H1. destruct (AWSS3.read_json file w2). simpl in *. by subst.
Qed.

(** [run] looks at the company name only: the other attributes of the
    object, [invalid_pages] among them, play no part. *)
Lemma run_ignores_invalid_pages other w :
  company other = company self → run parse_html other w = run parse_html self w.
Proof. intros Hc. unfold run. by rewrite Hc. Qed.

Lemma capture_url_bucket file w1 w2 :
  bucket w1 = bucket w2 → capture_url w1 file = capture_url w2 file.
Proof.
  intros Hb. unfold capture_url.
  pose proof (read_json_bucket file w1 w2 Hb) as H.
  destruct (AWSS3.read_json file w1) as [r1 ?], (AWSS3.read_json file w2) as [r2 ?].
  simpl in H. by subst.
Qed.

Lemma capture_url_item file w fc tree now :
  AWSS3.read_json file w = (Ok fc, w) →
  (∃ content, Json.get fc "content" = Ok content) →
  capture_url w file = Some (url (item_of fc tree now)).
Proof.
  intros Hread [content Hcontent]. unfold capture_url. rewrite Hread.
  destruct fc; try discriminate. reflexivity.
Qed.

(** After a batch that went through, the urls on record are those that
    were there before and those of the captures of the batch. *)
Lemma for_each_urls files w w' :
  for_each (process_file parse_html self) files w = (Ok tt, w') →
  ∀ u, u ∈ map url (collection w')
       ↔ u ∈ map url (collection w)
         ∨ ∃ file, file ∈ files ∧ capture_url w file = Some u.
Proof.
  revert w. induction files as [|file files IH]; intros w Hrun u.
  - injection Hrun as <-. split; [by left|].
    intros [H | (f & Hf & _)]; [done | by apply elem_of_nil in Hf].
  - rewrite for_each_cons in Hrun.
    destruct (process_file_cases parse_html self file w)
      as [[e H] | (fc & text & tree & Hread & Hcontent & Hparse & H)];
      rewrite H in Hrun; [done|].
    rewrite (IH _ Hrun u). simpl collection.
    rewrite (upserted_urls (item_of fc tree (clock w))).
    pose proof (capture_url_item file w fc tree (clock w) Hread
                  ltac:(by eexists)) as Hcap.
    assert (∀ f, capture_url (processed fc tree w) f = capture_url w f) as Hsame
        by (intros f; by apply capture_url_bucket).
    split.
    + intros [[-> | Hold] | (f & Hf & Hu)].
      * right. exists file. split; [apply list_elem_of_here | done].
      * by left.
      * right. exists f. split; [by apply list_elem_of_further|].
        by rewrite <- Hsame.
    + intros [Hold | (f & Hf & Hu)]; [by left; right|].
      apply elem_of_cons in Hf as [-> | Hf].
      * left. left. congruence.
      * right. exists f. by rewrite Hsame.
Qed.

(** A run that goes through on an empty collection leaves one document
    for every distinct url among the listed captures, and no other. *)
Lemma run_one_record_per_listed_url w w' files :
  collection w = [] →
  AWSS3.list_files_from_path ("pages/" +:+ company self) w = (Ok (Some files), w) →
  run parse_html self w = (Ok tt, w') →
  NoDup (map url (collection w'))
  ∧ ∀ u, u ∈ map url (collection w')
         ↔ ∃ file, file ∈ files ∧ capture_url w file = Some u.
Proof.
  intros Hempty Hlist Hrun.
  rewrite (run_unfold parse_html self w _ Hlist) in Hrun.
  split.
  - pose proof (for_each_invariant parse_html self files w) as [_ Hnd].
    rewrite Hrun in Hnd. apply Hnd. rewrite Hempty. apply NoDup_nil_2.
  - intros u. rewrite (for_each_urls files w w' Hrun u), Hempty.
    split; [intros [H | H]; [by apply elem_of_nil in H | done] | by right].
Qed.

End DriverFacts.

(** C3, as the code has it — A capture that fails stops the batch: the
    exception leaves [run], the captures listed before it have been
    processed, the failing one leaves no trace, and those listed after it
    are not looked at. *)
Theorem run_stops_at_first_failing_page
    (parse_html : string → result HtmlElement) (self : BaseProcessing)
    (w w1 w2 : world) (pre post : list string) (file : string) (e : exn) :
  AWSS3.list_files_from_path ("pages/" +:+ company self) w
  = (Ok (Some (pre ++ file :: post)), w) →
  for_each (process_file parse_html self) pre w = (Ok tt, w1) →
  process_file parse_html self file w1 = (Raise e, w2) →
  run parse_html self w = (Raise e, w1) ∧ w2 = w1.
Proof.
  intros Hlist Hpre Hfile.
  pose proof (process_file_raise _ _ _ _ _ _ Hfile) as ->.
  split; [|done].
  rewrite (run_unfold parse_html self w _ Hlist).
  by apply (for_each_stops _ pre file post w w1 e w1).
Qed.

Lemma run_stops_at_first_failing_page_witness :
  let self := new_BaseProcessing "Superside" false false in
  let w1 := after (process_file (parse_known known_pages) self
                                "pages/Superside/www.superside.com-a.json")
                  three_captures in
  run (parse_known known_pages) self three_captures = (Raise ParserError, w1)
  ∧ w1 = w1.
Proof.
  intros self w1.
  apply (run_stops_at_first_failing_page (parse_known known_pages) self
           three_captures w1 w1
           ["pages/Superside/www.superside.com-a.json"]
           ["pages/Superside/www.superside.com-c.json"]
           "pages/Superside/www.superside.com-b.json" ParserError);
    vm_compute; reflexivity.
Defined.

(** C3, as the claim has it, fails — Of three captures the second has an
    empty body, which lxml refuses: [run] raises [ParserError], and the
    third capture, which is processed without error on its own, has no
    record. *)
Lemma one_bad_page_aborts_the_batch :
  let self := new_BaseProcessing "Superside" false false in
  let result := run (parse_known known_pages) self three_captures in
  AWSS3.list_files_from_path "pages/Superside" three_captures
  = (Ok (Some ["pages/Superside/www.superside.com-a.json";
               "pages/Superside/www.superside.com-b.json";
               "pages/Superside/www.superside.com-c.json"]), three_captures)
  ∧ result.1 = Raise ParserError
  ∧ map url (collection result.2) = [JStr "https://www.superside.com/a"]
  ∧ (process_file (parse_known known_pages) self
                  "pages/Superside/www.superside.com-c.json" three_captures).1 = Ok tt.
Proof. vm_compute. repeat split. Qed.

(** C4 — Extraction is idempotent per url. From a collection with at most
    one document per url, any sequence of extractions, failed ones
    included, leaves at most one document per url. When a capture is
    extracted twice, the second extraction goes through like the first,
    replaces the document of the first in place, and leaves exactly one
    document for that url: the one stamped by the second extraction. *)
Theorem extraction_twice_keeps_one_record
    (parse_html : string → result HtmlElement) (self : BaseProcessing)
    (files : list string) (file : string) (w : world) :
  NoDup (map url (collection w)) →
  NoDup (map url (collection (for_each (process_file parse_html self) files w).2))
  ∧ ((process_file parse_html self file w).1 = Ok tt →
     let once := (process_file parse_html self file w).2 in
     let twice := process_file parse_html self file once in
     twice.1 = Ok tt
     ∧ NoDup (map url (collection twice.2))
     ∧ length (collection twice.2) = length (collection once)
     ∧ ∃ first second,
         Some (url first) = capture_url w file
         ∧ with_url (url first) (collection once) = [first]
         ∧ updated_at first = clock w
         ∧ with_url (url first) (collection twice.2) = [second]
         ∧ url second = url first
         ∧ updated_at second = S (clock w)).
Proof.
  intros Hnd.
  split; [by apply for_each_invariant|].
  intros Hok once twice.
  destruct (process_file_cases parse_html self file w)
    as [[e H] | (fc & text & tree & Hread & Hcontent & Hparse & H)];
    [by rewrite H in Hok|].
  assert (once = processed fc tree w) as Honce by (subst once; by rewrite H).
  assert (twice = (Ok tt, processed fc tree once)) as Htwice.
  { subst twice. apply (process_file_ok _ _ _ _ fc text tree); [|done..].
    apply (read_json_same_bucket file w); [by rewrite Honce | done]. }
  rewrite Htwice. simpl fst. simpl snd.
  set (first := item_of fc tree (clock w)).
  set (second := item_of fc tree (clock once)).
  assert (url second = url first) as Hurl by done.
  assert (NoDup (map url (collection once))) as Hnd1.
  { rewrite Honce. by apply (upserted_nodup first). }
  assert (first ∈ collection once) as Hin1.
  { rewrite Honce. apply (upserted_elem first). }
  assert (collection (processed fc tree once)
          = upserted (url second) second (collection once)) as Hc2 by done.
  split; [done|].
  split; [rewrite Hc2; by apply upserted_nodup|].
  split.
  { rewrite Hc2. apply upserted_length_known. rewrite Hurl.
    by apply list_elem_of_fmap_2. }
  exists first, second.
  split.
  { unfold capture_url. rewrite Hread. destruct fc; try discriminate. reflexivity. }
  split; [by apply with_url_unique|].
  split; [done|].
  split.
  { rewrite <- Hurl. apply with_url_unique.
    - rewrite Hc2. by apply upserted_nodup.
    - rewrite Hc2. apply upserted_elem. }
  split; [done|]. simpl. by rewrite Honce.
Qed.

Lemma extraction_twice_keeps_one_record_witness :
  let self := new_BaseProcessing "Superside" false false in
  let file := "pages/Superside/www.superside.com-a.json" in
  let process := process_file (parse_known known_pages) self in
  let once := (process file three_captures).2 in
  let twice := process file once in
  NoDup (map url (collection three_captures))
  ∧ (process file three_captures).1 = Ok tt
  ∧ twice.1 = Ok tt
  ∧ map url (collection twice.2) = [JStr "https://www.superside.com/a"]
  ∧ map updated_at (collection once) = [0]
  ∧ map updated_at (collection twice.2) = [1].
Proof.
  intros self file process once twice.
  assert (NoDup (map url (collection three_captures))) as Hnd by apply NoDup_nil_2.
  assert ((process file three_captures).1 = Ok tt) as Hfirst by reflexivity.
  destruct (extraction_twice_keeps_one_record (parse_known known_pages) self
              [] file three_captures Hnd) as (_ & Htwice).
  destruct (Htwice Hfirst) as (Hok & _).
  split; [exact Hnd|]. split; [exact Hfirst|]. split; [exact Hok|].
  vm_compute. repeat split.
Defined.

(** C1 — [run] does not leave out the pages that [invalid_pages] names.
    The capture of a blog author page has a key that contains
    ["-blog-author-"]; [get_files_paths] drops a file of that name, but
    [run] lists the keys with [list_files_from_path], filters nothing, and
    writes a document for the page. *)
Theorem run_keeps_invalid_page :
  let self := new_BaseProcessing "Superside" false false in
  let response := {| response_url := "https://www.superside.com/blog/author/jane";
                     response_text := "<p>Hi</p>" |} in
  let key := "pages/Superside/www.superside.com-blog-author-jane.json" in
  let w := after (SupersideSpider.parse_item response) (World ∅ [] 0) in
  SupersideSpider.file_path response = key
  ∧ Py.contains "-blog-author-" key = true
  ∧ In "-blog-author-" (invalid_pages self)
  ∧ get_files_paths self ["datalake/Superside/www.superside.com-blog-author-jane.json"]
    = []
  ∧ AWSS3.list_files_from_path "pages/Superside" w = (Ok (Some [key]), w)
  ∧ (run (parse_known known_pages) self w).1 = Ok tt
  ∧ collection (run (parse_known known_pages) self w).2
    = [Document (JStr "https://www.superside.com/blog/author/jane")
                None None (Some "Hi") 0].
Proof. vm_compute. repeat split. by left. Qed.

(* ===================================================================== *)
(** * More on the object store *)
(* ===================================================================== *)

Section Listing.

Lemma decode_cons c b :
  Utf8.decode (String c b)
  = if Py.ord c <? 128 then t ← Utf8.decode b; Ok (String c t)
    else if (Py.ord c =? 194) || (Py.ord c =? 195) then
      match b with
      | String d b' =>
          if (128 <=? Py.ord d) && (Py.ord d <? 192)
          then t ← Utf8.decode b';
               Ok (String (ascii_of_nat ((Py.ord c - 192) * 64 + (Py.ord d - 128))) t)
          else Raise UnicodeDecodeError
      | "" => Raise UnicodeDecodeError
      end
    else Raise UnicodeDecodeError.
Proof. reflexivity. Qed.

Lemma decode_raises_two b :
  (∀ e, Utf8.decode b = Raise e → e = UnicodeDecodeError)
  ∧ (∀ c e, Utf8.decode (String c b) = Raise e → e = UnicodeDecodeError).
Proof.
  induction b as [|d b [IH1 IH2]].
  - split; [done|]. intros c e. rewrite decode_cons.
    repeat case_match; simpl; congruence.
  - split; [apply IH2|]. intros c e. rewrite decode_cons.
    destruct (Py.ord c <? 128).
    + destruct (Utf8.decode (String d b)) as [t|e'] eqn:Hd; [done|].
      intros [= <-]. by apply (IH2 d).
    + destruct ((Py.ord c =? 194) || (Py.ord c =? 195)); [|congruence].
      destruct ((128 <=? Py.ord d) && (Py.ord d <? 192)); [|congruence].
      destruct (Utf8.decode b) as [t|e'] eqn:Hd; [done|].
      intros [= <-]. by apply IH1.
Qed.

Lemma decode_raises b e : Utf8.decode b = Raise e → e = UnicodeDecodeError.
Proof. apply decode_raises_two. Qed.

Lemma loads_raises s e : Json.loads s = Raise e → e = JSONDecodeError.
Proof.
  unfold Json.loads.
  destruct (Json.scan_value _ _) as [[v rest]|]; [|congruence].
  destruct (Json.skip_ws rest); congruence.
Qed.

Lemma keys_with_prefix_elem path b k :
  k ∈ S3.keys_with_prefix path b ↔ is_Some (b !! k) ∧ Py.startswith path k = true.
Proof.
  unfold S3.keys_with_prefix. rewrite merge_sort_Permutation, list_elem_of_filter.
  rewrite list_elem_of_fmap. split.
  - intros (Hstart & [k' v] & -> & Hin). apply elem_of_map_to_list in Hin.
    split; [by eexists | done].
  - intros ([v Hv] & Hstart). split; [done|].
    exists (k, v). split; [done|]. by apply elem_of_map_to_list.
Qed.

Lemma keys_with_prefix_nodup path b : NoDup (S3.keys_with_prefix path b).
Proof.
  unfold S3.keys_with_prefix. rewrite merge_sort_Permutation.
  apply NoDup_filter, NoDup_fst_map_to_list.
Qed.

Lemma keys_with_prefix_sorted path b : Sorted String.le (S3.keys_with_prefix path b).
Proof. apply Sorted_merge_sort. apply _. Qed.

Lemma keys_with_prefix_length path b : length (S3.keys_with_prefix path b) ≤ size b.
Proof.
  unfold S3.keys_with_prefix. rewrite merge_sort_Permutation.
  etrans; [apply length_filter|].
  by rewrite length_fmap, length_map_to_list.
Qed.

Lemma map_Key_summaries (f : string → nat) l :
  map S3.Key (map (fun k => S3.ObjectSummary k (f k)) l) = l.
Proof. induction l as [|k l IH]; [done|]. simpl. by rewrite IH. Qed.

(** The listing, in terms of the keys of the bucket. *)
Lemma list_files_from_path_keys path w :
  AWSS3.list_files_from_path path w
  = (Ok (match S3.keys_with_prefix path (bucket w) with
         | [] => None
         | keys => Some (take S3.max_keys keys)
         end), w).
Proof.
  unfold AWSS3.list_files_from_path, S3.list_objects_v2, mbind, M_bind, mret, M_ret.
  destruct (S3.keys_with_prefix path (bucket w)) as [|k keys]; [done|].
  change (take S3.max_keys (k :: keys)) with (k :: take 999 keys).
  f_equal. f_equal. simpl. do 2 f_equal.
  apply (map_Key_summaries (fun k => String.length (default "" (bucket w !! k)))).
Qed.

Lemma Sorted_take {A} (R : relation A) n l : Sorted R l → Sorted R (take n l).
Proof.
  intros Hs. revert n. induction Hs as [|x l Hs IH Hhd]; intros [|n]; simpl;
    try constructor; auto.
  destruct Hhd as [|y l' Hxy]; [destruct n; constructor|].
  destruct n; constructor. done.
Qed.

End Listing.






(** X4 — What [list_files_from_path] returns, when it is not [None], is a
    non-empty list without repetition, in lexicographic order, of at most
    1000 keys; every one of them is a key of the bucket and starts with
    the prefix. *)
Theorem listed_files_are_keys_with_the_prefix (path : string) (w : world)
    (files : list string) :
  AWSS3.list_files_from_path path w = (Ok (Some files), w) →
  files ≠ []
  ∧ NoDup files
  ∧ Sorted String.le files
  ∧ length files ≤ S3.max_keys
  ∧ ∀ k, k ∈ files → is_Some (bucket w !! k) ∧ Py.startswith path k = true.
Proof.
  rewrite list_files_from_path_keys. intros Hlist.
  pose proof (keys_with_prefix_nodup path (bucket w)) as Hnd.
  pose proof (keys_with_prefix_sorted path (bucket w)) as Hsorted.
  pose proof (keys_with_prefix_elem path (bucket w)) as Helem.
  destruct (S3.keys_with_prefix path (bucket w)) as [|k keys]; [done|].
  assert (files = take S3.max_keys (k :: keys)) as -> by congruence.
  split; [discriminate|].
  split; [eapply sublist_NoDup; [exact Hnd | apply sublist_take]|].
  split; [by apply Sorted_take|].
  split; [rewrite length_take; lia|].
  intros k' Hk'. apply Helem.
  eapply elem_of_sublist; [exact Hk' | apply sublist_take].
Qed.

Lemma listed_files_are_keys_with_the_prefix_witness :
  let files := ["pages/Superside/www.superside.com-a.json";
                "pages/Superside/www.superside.com-b.json";
                "pages/Superside/www.superside.com-c.json"] in
  files ≠ []
  ∧ NoDup files
  ∧ Sorted String.le files
  ∧ length files ≤ S3.max_keys
  ∧ ∀ k, k ∈ files → is_Some (bucket three_captures !! k)
                     ∧ Py.startswith "pages/Superside" k = true.
Proof.
  apply (listed_files_are_keys_with_the_prefix "pages/Superside" three_captures).
  reflexivity.
Defined.

(** X5 — In a bucket of at most 1000 objects the listing is complete:
    every key of the bucket that starts with the prefix is among the
    listed files. *)
Theorem every_key_with_the_prefix_is_listed (path : string) (w : world) (k : string) :
  size (bucket w) ≤ S3.max_keys →
  is_Some (bucket w !! k) →
  Py.startswith path k = true →
  ∃ files, AWSS3.list_files_from_path path w = (Ok (Some files), w) ∧ k ∈ files.
Proof.
  intros Hsize Hk Hstart. rewrite list_files_from_path_keys.
  pose proof (keys_with_prefix_length path (bucket w)) as Hlen.
  pose proof (proj2 (keys_with_prefix_elem path (bucket w) k) (conj Hk Hstart)) as Hin.
  destruct (S3.keys_with_prefix path (bucket w)) as [|k' keys] eqn:Hkeys;
    [by apply elem_of_nil in Hin|].
  eexists. split; [done|]. rewrite take_ge; [done | lia].
Qed.

Lemma every_key_with_the_prefix_is_listed_witness :
  ∃ files, AWSS3.list_files_from_path "pages/Superside" three_captures
           = (Ok (Some files), three_captures)
           ∧ "pages/Superside/www.superside.com-b.json" ∈ files.
Proof.
  apply (every_key_with_the_prefix_is_listed "pages/Superside" three_captures
           "pages/Superside/www.superside.com-b.json").
  - vm_compute. lia.
  - by eexists.
  - reflexivity.
Defined.

(* ===================================================================== *)
(** * More on [BaseProcessing] *)
(* ===================================================================== *)

Section Substrings.

Lemma startswith_spec p s : Py.startswith p s = true ↔ ∃ r, s = p +:+ r.
Proof.
  revert s. induction p as [|a p IH]; intros s.
  - split; [intros _; by exists s | done].
  - destruct s as [|b s]; simpl.
    + split; [done | intros [r Hr]; rewrite app_cons in Hr; discriminate].
    + case_decide as Hab.
      * subst b. rewrite IH. split; intros [r Hr]; exists r.
        -- by rewrite app_cons, Hr.
        -- rewrite app_cons in Hr. by injection Hr.
      * split; [done|]. intros [r Hr]. rewrite app_cons in Hr. congruence.
Qed.

(** [sub in s] holds exactly when [s] is [a + sub + b] for some [a], [b]. *)
Lemma contains_spec sub s : Py.contains sub s = true ↔ ∃ a b, s = a +:+ sub +:+ b.
Proof.
  induction s as [|c s IH]; simpl.
  - rewrite startswith_spec. split.
    + intros [r Hr]. by exists "", r.
    + intros (a & b & Hab). destruct a; [by exists b|].
      rewrite app_cons in Hab. discriminate.
  - rewrite orb_true_iff, IH, startswith_spec. split.
    + intros [[r Hr] | (a & b & Hab)].
      * by exists "", r.
      * exists (String c a), b. by rewrite app_cons, Hab.
    + intros (a & b & Hab). destruct a as [|c' a].
      * left. by exists b.
      * right. rewrite app_cons in Hab. injection Hab as -> ->. by exists a, b.
Qed.

Lemma existsb_false {A} (p : A → bool) l :
  existsb p l = false ↔ ∀ x, x ∈ l → p x = false.
Proof.
  induction l as [|y l IH]; simpl.
  - split; [intros _ x Hx; by apply elem_of_nil in Hx | done].
  - rewrite orb_false_iff, IH. split.
    + intros [Hy Hl] x [-> | Hx]%elem_of_cons; auto.
    + intros H. split; [apply H, list_elem_of_here|].
      intros x Hx. apply H. by apply list_elem_of_further.
Qed.

End Substrings.

(** X6 — [get_files_paths] keeps the files in their order and drops
    exactly those whose path contains one of the [invalid_pages]
    substrings somewhere; filtering its result again changes nothing. *)
Theorem get_files_paths_drops_exactly_invalid_paths (self : BaseProcessing)
    (files : list string) :
  let valid := get_files_paths self files in
  valid `sublist_of` files
  ∧ (∀ file, file ∈ valid
             ↔ file ∈ files
               ∧ ∀ substring a b, substring ∈ invalid_pages self →
                                  file ≠ a +:+ substring +:+ b)
  ∧ get_files_paths self valid = valid.
Proof.
  intros valid. subst valid. unfold get_files_paths.
  split; [apply sublist_filter|]. split.
  - intros file. rewrite list_elem_of_filter, existsb_false. split.
    + intros [Hnone Hin]. split; [done|]. intros sub a b Hsub ->.
      specialize (Hnone sub Hsub).
      assert (Py.contains sub (a +:+ sub +:+ b) = true) as Hc
          by (apply contains_spec; eauto).
      congruence.
    + intros [Hin Hnone]. split; [|done]. intros sub Hsub.
      destruct (Py.contains sub file) eqn:Hc; [|done].
      apply contains_spec in Hc as (a & b & ->). by destruct (Hnone sub a b).
  - rewrite list_filter_filter. apply list_filter_iff. tauto.
Qed.

Section ScanRemoval.
Variable matcher : string → option nat.

(** With an empty replacement the scan only takes characters away. *)
Lemma scan_removal_length k s :
  String.length (Py.scan matcher "" k s) ≤ String.length s.
Proof.
  revert k. induction s as [|c s IH]; intros k; [done|].
  simpl. destruct k as [|k]; [|specialize (IH k); lia].
  destruct (matcher (String c s)) as [[|n]|].
  - simpl. specialize (IH 0). lia.
  - rewrite app_empty_l. specialize (IH n). lia.
  - simpl. specialize (IH 0). lia.
Qed.

Lemma scan_removal_chars a k s :
  has_char a (Py.scan matcher "" k s) = true → has_char a s = true.
Proof.
  revert k. induction s as [|c s IH]; intros k; [done|].
  simpl. destruct k as [|k].
  - destruct (matcher (String c s)) as [[|n]|]; simpl;
      rewrite ?app_empty_l, !orb_true_iff;
      try (intros [? | ?]; [by left | right; by eapply IH]).
    intros ?. right. by eapply IH.
  - rewrite orb_true_iff. intros ?. right. by eapply IH.
Qed.
End ScanRemoval.

Section TagFree.

Lemma tag_pattern_lt r : Py.tag_pattern (String "<" r) = S <$> Py.lazy_dot_gt r.
Proof. reflexivity. Qed.

Lemma tag_pattern_other c r : c ≠ "<"%char → Py.tag_pattern (String c r) = None.
Proof. intros Hc. destruct c as [[] [] [] [] [] [] [] []]; done. Qed.

Lemma tag_pattern_not_zero s : Py.tag_pattern s ≠ Some 0.
Proof.
  destruct s as [|c r]; [done|].
  destruct (decide (c = "<"%char)) as [->|Hc].
  - rewrite tag_pattern_lt. by destruct (Py.lazy_dot_gt r).
  - by rewrite tag_pattern_other.
Qed.

Lemma clean_cons c r :
  cleanhtml (String c r)
  = match Py.tag_pattern (String c r) with
    | Some (S k) => Py.scan Py.tag_pattern "" k r
    | _ => String c (cleanhtml r)
    end.
Proof. reflexivity. Qed.

(** Behind a ["<"] that starts no tag, cleaning brings no tag about. *)
Lemma lazy_dot_gt_clean r :
  Py.lazy_dot_gt r = None → Py.lazy_dot_gt (cleanhtml r) = None.
Proof.
  induction r as [|c r IH]; [done|].
  intros Hnone. simpl in Hnone.
  destruct (decide (c = ">"%char)) as [|Hgt]; [done|].
  destruct (decide (c = "010"%char)) as [->|Hnl]; [done|].
  destruct (Py.lazy_dot_gt r) as [n|] eqn:Hr; [done|].
  rewrite clean_cons.
  assert (Py.tag_pattern (String c r) = None) as ->.
  { destruct (decide (c = "<"%char)) as [->|Hc].
    - by rewrite tag_pattern_lt, Hr.
    - by apply tag_pattern_other. }
  simpl. rewrite !decide_False by done. by rewrite IH.
Qed.

Lemma scan_cons (m : string → option nat) repl k c s :
  Py.scan m repl k (String c s)
  = match k with
    | S k' => Py.scan m repl k' s
    | O => match m (String c s) with
           | Some (S n) => repl +:+ Py.scan m repl n s
           | _ => String c (Py.scan m repl 0 s)
           end
    end.
Proof. reflexivity. Qed.

Lemma scan_tag_free k s : tag_free (Py.scan Py.tag_pattern "" k s).
Proof.
  revert k. induction s as [|c s IH]; intros k.
  - intros y z Hyz. simpl in Hyz.
    destruct y; [|rewrite app_cons in Hyz; discriminate].
    rewrite app_empty_l in Hyz. by subst z.
  - rewrite scan_cons. destruct k as [|k]; [|apply IH].
    destruct (Py.tag_pattern (String c s)) as [[|n]|] eqn:Hm.
    + by destruct (tag_pattern_not_zero (String c s)).
    + rewrite app_empty_l. apply IH.
    + intros y z Hyz. destruct y as [|c' y].
      * rewrite app_empty_l in Hyz. subst z.
        destruct (decide (c = "<"%char)) as [->|Hc]; [|by apply tag_pattern_other].
        rewrite tag_pattern_lt in *.
        destruct (Py.lazy_dot_gt s) eqn:Hs; [done|].
        change (Py.scan Py.tag_pattern "" 0 s) with (cleanhtml s).
        by rewrite lazy_dot_gt_clean.
      * rewrite app_cons in Hyz. injection Hyz as _ Hyz. by apply (IH 0 y z).
Qed.

Lemma cleanhtml_tag_free_id s : tag_free s → cleanhtml s = s.
Proof.
  intros Hfree. rewrite <- (app_empty_r s) at 1.
  unfold cleanhtml, Py.re_sub. rewrite scan_keep; [by rewrite app_empty_r|].
  intros y z -> _. rewrite app_empty_r. by apply (Hfree y z).
Qed.

End TagFree.

(** X7 — [cleanhtml] only takes characters away: its result is never
    longer than the text, every character of the result is one of the
    text, and a text without ["<"] comes back unchanged. *)
Theorem cleanhtml_only_removes (text : string) :
  String.length (cleanhtml text) ≤ String.length text
  ∧ (∀ c, has_char c (cleanhtml text) = true → has_char c text = true)
  ∧ (has_char "<" text = false → cleanhtml text = text).
Proof.
  split; [apply scan_removal_length|].
  split; [intros c; apply scan_removal_chars|].
  intros Hlt. rewrite <- (app_empty_r text) at 1.
  by rewrite cleanhtml_text, cleanhtml_empty, app_empty_r.
Qed.

(** X8 — No position of a cleaned text starts a match of [<.*?>], so
    cleaning a second time changes nothing. *)
Theorem cleanhtml_is_idempotent (text : string) :
  tag_free (cleanhtml text) ∧ cleanhtml (cleanhtml text) = cleanhtml text.
Proof.
  assert (tag_free (cleanhtml text)) as Hfree by apply scan_tag_free.
  split; [done|]. by apply cleanhtml_tag_free_id.
Qed.

Section JoinedText.

Lemma replace_removes_char c s :
  has_char c (Py.replace (String c "") "" s) = false.
Proof.
  unfold Py.replace.
  set (m := fun t => if Py.startswith (String c "") t
                     then Some (String.length (String c "")) else None).
  induction s as [|a s IH]; [done|].
  rewrite scan_cons.
  assert (m (String a s) = if decide (c = a) then Some 1 else None) as ->.
  { subst m. simpl. by case_decide. }
  case_decide as Hca.
  - by rewrite app_empty_l.
  - simpl. rewrite IH. rewrite bool_decide_eq_false_2 by congruence. done.
Qed.

Lemma replace_removal_chars a old s :
  has_char a s = false → has_char a (Py.replace old "" s) = false.
Proof.
  intros Hs. destruct old as [|o old].
  { unfold Py.replace. induction s as [|c s IH]; [done|].
    simpl in *.
    apply orb_false_elim in Hs as [-> Hs]. by rewrite IH. }
  unfold Py.replace.
  destruct (has_char a (Py.scan _ "" 0 s)) eqn:H; [|done].
  apply scan_removal_chars in H. congruence.
Qed.

(** The text that both extractions return holds no newline. *)
Lemma joined_no_newline data : has_char "010" (joined data) = false.
Proof. unfold joined. apply replace_removal_chars, replace_removes_char. Qed.

End JoinedText.

Section Comprehension.

Lemma comprehension_strings next_data :
  (∀ v, v ∈ next_data → Json.truthy v = true → ∃ s, v = JStr s) →
  comprehension (fun text => s ← strip_value text; Ok (cleanhtml s))
                (filter (fun text => Json.truthy text = true) next_data)
  = Ok (harvested next_data).
Proof.
  induction next_data as [|x l IH]; intros Hall; [done|].
  assert (∀ v, v ∈ l → Json.truthy v = true → ∃ s, v = JStr s) as Hl
      by (intros v Hv; apply Hall; by apply list_elem_of_further).
  destruct (Json.truthy x) eqn:Hx.
  - rewrite filter_cons_True by done.
    destruct (Hall x (list_elem_of_here _ _) Hx) as [s ->].
    simpl. rewrite (IH Hl). unfold harvested. simpl.
    change (match s with "" => false | String _ _ => true end)
      with (Json.truthy (JStr s)). by rewrite Hx.
  - rewrite filter_cons_False by congruence. rewrite (IH Hl).
    unfold harvested. simpl. destruct x; try done.
    change (match s with "" => false | String _ _ => true end)
      with (Json.truthy (JStr s)). by rewrite Hx.
Qed.

Lemma comprehension_non_string next_data v :
  v ∈ next_data → Json.truthy v = true → (∀ s, v ≠ JStr s) →
  comprehension (fun text => s ← strip_value text; Ok (cleanhtml s))
                (filter (fun text => Json.truthy text = true) next_data)
  = Raise AttributeError.
Proof.
  intros Hin Hv Hns. induction next_data as [|x l IH]; [by apply elem_of_nil in Hin|].
  destruct (Json.truthy x) eqn:Hx.
  - rewrite filter_cons_True by done. simpl.
    destruct x as [| b | n | s | items | fields]; try done.
    apply elem_of_cons in Hin as [-> | Hin]; [by destruct (Hns s)|].
    simpl. by rewrite (IH Hin).
  - rewrite filter_cons_False by congruence.
    apply elem_of_cons in Hin as [-> | Hin]; [congruence|]. by apply IH.
Qed.

Lemma harvested_cons x l :
  harvested (x :: l)
  = match x with
    | JStr s => if Json.truthy x then cleanhtml (Py.strip s) :: harvested l
                else harvested l
    | _ => harvested l
    end.
Proof. destruct x as [| | | [|c s] | |]; reflexivity. Qed.

Lemma harvested_falsy next_data :
  (∀ v, v ∈ next_data → Json.truthy v = false) → harvested next_data = [].
Proof.
  induction next_data as [|x l IH]; intros Hall; [done|].
  rewrite harvested_cons.
  rewrite IH by (intros v Hv; apply Hall; by apply list_elem_of_further).
  rewrite (Hall x (list_elem_of_here _ _)). by destruct x.
Qed.

End Comprehension.

(** X9 — The text that [extract_text_by_xpath] returns holds no newline
    character, whatever the matched strings were. *)
Theorem extract_text_by_xpath_has_no_newline (tree : HtmlElement)
    (selector : Lxml.selector) (text : string) :
  extract_text_by_xpath tree selector = Some text →
  has_char "010" text = false.
Proof.
  unfold extract_text_by_xpath.
  destruct (Lxml.xpath tree selector) as [|x data] eqn:Hx; [done|].
  intros [= <-]. apply (joined_no_newline (x :: data)).
Qed.

Lemma extract_text_by_xpath_has_no_newline_witness :
  has_char "010" "Hello World" = false.
Proof.
  apply (extract_text_by_xpath_has_no_newline
           (Element "html" []
              [Element "body" []
                 [Element "p" [] [Text ("Hello" +:+ newline)];
                  Element "p" [] [Text "World"]]])
           sel_texts "Hello World").
  reflexivity.
Defined.

Lemma extract_next_data_strings_result tree data others data_parsed :
  Lxml.xpath tree sel_next_data = data :: others →
  Json.loads data = Ok data_parsed →
  (∀ v, v ∈ next_data_of data_parsed → Json.truthy v = true → ∃ s, v = JStr s) →
  extract_next_data tree = Ok (or_None (joined (harvested (next_data_of data_parsed)))).
Proof.
  intros Hx Hloads Hall.
  unfold extract_next_data. rewrite Hx. simpl. rewrite Hloads. simpl.
  by rewrite (comprehension_strings _ Hall).
Qed.

(** X10 — When every collected value that counts as true is a string,
    [extract_next_data] raises nothing: it returns the stripped and
    cleaned strings joined by single spaces, without newlines and
    ["&nbsp;"], or [None] when that text is empty. A text that it returns
    is not empty and holds no newline. *)
Theorem extract_next_data_of_strings (tree : HtmlElement) (data : string)
    (others : list string) (data_parsed : json) :
  Lxml.xpath tree sel_next_data = data :: others →
  Json.loads data = Ok data_parsed →
  (∀ v, v ∈ next_data_of data_parsed → Json.truthy v = true → ∃ s, v = JStr s) →
  extract_next_data tree = Ok (or_None (joined (harvested (next_data_of data_parsed))))
  ∧ ∀ text, extract_next_data tree = Ok (Some text) →
            text ≠ "" ∧ has_char "010" text = false.
Proof.
  intros Hx Hloads Hall.
  pose proof (extract_next_data_strings_result tree data others data_parsed
                Hx Hloads Hall) as Hres.
  split; [done|]. rewrite Hres. intros text [= Ht].
  pose proof (joined_no_newline (harvested (next_data_of data_parsed))) as Hnl.
  destruct (joined _) as [|c t]; [done|]. simpl in Ht.
  injection Ht as <-. by split.
Qed.

Lemma extract_next_data_of_strings_witness :
  let payload := JObj [("props", JObj [("body", JStr "  <b>Design</b> at scale ")]);
                       ("paragraph", JStr ""); ("content", JNull)] in
  let tree := Element "html" []
                [Element "script" [("id", "__NEXT_DATA__")]
                   [Text (Json.dumps payload)]] in
  extract_next_data tree = Ok (Some "Design at scale").
Proof.
  intros payload tree.
  destruct (extract_next_data_of_strings tree (Json.dumps payload) [] payload)
    as [Hres _]; [reflexivity | reflexivity | |exact Hres].
  intros v Hv Htrue. vm_compute in Hv.
  repeat (apply elem_of_cons in Hv as [-> | Hv]; [by eauto || discriminate|]).
  by apply elem_of_nil in Hv.
Defined.

(** X11 — When one of the collected values counts as true and is not a
    string (a number, [True], a non-empty list or dictionary),
    [extract_next_data] raises [AttributeError] from [text.strip()]. *)
Theorem extract_next_data_raises_on_non_string (tree : HtmlElement) (data : string)
    (others : list string) (data_parsed v : json) :
  Lxml.xpath tree sel_next_data = data :: others →
  Json.loads data = Ok data_parsed →
  v ∈ next_data_of data_parsed →
  Json.truthy v = true →
  (∀ s, v ≠ JStr s) →
  extract_next_data tree = Raise AttributeError.
Proof.
  intros Hx Hloads Hin Hv Hns.
  unfold extract_next_data. rewrite Hx. simpl. rewrite Hloads. simpl.
  by rewrite (comprehension_non_string _ v).
Qed.

Lemma extract_next_data_raises_on_non_string_witness :
  let payload := JObj [("body", JStr "Intro");
                       ("content", JObj [("body", JStr "Nested")])] in
  let tree := Element "html" []
                [Element "script" [("id", "__NEXT_DATA__")]
                   [Text (Json.dumps payload)]] in
  extract_next_data tree = Raise AttributeError.
Proof.
  intros payload tree.
  apply (extract_next_data_raises_on_non_string tree (Json.dumps payload) [] payload
           (JObj [("body", JStr "Nested")]));
    [reflexivity | reflexivity | | reflexivity | discriminate].
  vm_compute. apply list_elem_of_further, list_elem_of_further, list_elem_of_here.
Defined.

(** X12 — When nothing that counts as true is stored under [paragraph],
    [body] or [content] (in particular when these keys do not occur),
    [extract_next_data] returns [None], whatever the payload holds under
    other keys. *)
Theorem extract_next_data_without_texts (tree : HtmlElement) (data : string)
    (others : list string) (data_parsed : json) :
  Lxml.xpath tree sel_next_data = data :: others →
  Json.loads data = Ok data_parsed →
  (∀ v, v ∈ next_data_of data_parsed → Json.truthy v = false) →
  extract_next_data tree = Ok None.
Proof.
  intros Hx Hloads Hall.
  rewrite (extract_next_data_strings_result tree data others data_parsed Hx Hloads).
  - by rewrite (harvested_falsy _ Hall).
  - intros v Hv Htrue. rewrite (Hall v Hv) in Htrue. discriminate.
Qed.

Lemma extract_next_data_without_texts_witness :
  let payload := JObj [("title", JStr "Superside"); ("page", JStr "/");
                       ("body", JStr ""); ("content", JArr [])] in
  let tree := Element "html" []
                [Element "script" [("id", "__NEXT_DATA__")]
                   [Text (Json.dumps payload)]] in
  extract_next_data tree = Ok None.
Proof.
  intros payload tree.
  apply (extract_next_data_without_texts tree (Json.dumps payload) [] payload);
    [reflexivity | reflexivity |].
  intros v Hv. vm_compute in Hv.
  repeat (apply elem_of_cons in Hv as [-> | Hv]; [reflexivity|]).
  by apply elem_of_nil in Hv.
Defined.

(* ===================================================================== *)
(** * More on the batch driver *)
(* ===================================================================== *)

Section Batch.
Variable parse_html : string → result HtmlElement.
Variable self : BaseProcessing.

Lemma processable_bucket w1 w2 file :
  bucket w1 = bucket w2 → processable parse_html w1 file → processable parse_html w2 file.
Proof.
  intros Hb (fc & text & tree & Hread & Hcontent & Hparse).
  exists fc, text, tree. split; [|done]. by apply (read_json_same_bucket file w1).
Qed.

(** A capture that can be processed has a url. *)
Lemma processable_capture_url w file :
  processable parse_html w file → ∃ u, capture_url w file = Some u.
Proof.
  intros (fc & text & tree & Hread & Hcontent & Hparse).
  exists (url (item_of fc tree 0)).
  apply capture_url_item; [done | by eexists].
Qed.

(** The loop goes through when every capture can be processed, and reads
    the clock once per capture. *)
Lemma for_each_processable files w :
  (∀ file, file ∈ files → processable parse_html w file) →
  ∃ w', for_each (process_file parse_html self) files w = (Ok tt, w')
        ∧ clock w' = clock w + length files.
Proof.
  revert w. induction files as [|file files IH]; intros w Hall.
  - exists w. split; [done | simpl; lia].
  - rewrite for_each_cons.
    destruct (Hall file (list_elem_of_here _ _))
      as (fc & text & tree & Hread & Hcontent & Hparse).
    rewrite (process_file_ok parse_html self file w fc text tree) by done.
    destruct (IH (processed fc tree w)) as (w' & Hrun & Hclock).
    { intros f Hf. apply (processable_bucket w); [done|].
      by apply Hall, list_elem_of_further. }
    exists w'. split; [done|]. rewrite Hclock. simpl. lia.
Qed.

Lemma upserted_length_bounds item c :
  length c ≤ length (upserted (url item) item c) ≤ S (length c).
Proof.
  destruct (decide (url item ∈ map url c)).
  - rewrite upserted_length_known by done. lia.
  - rewrite upserted_length_new by done. lia.
Qed.

Lemma process_file_length file w :
  let c' := collection (process_file parse_html self file w).2 in
  length (collection w) ≤ length c' ≤ S (length (collection w)).
Proof.
  destruct (process_file_cases parse_html self file w)
    as [[e H] | (fc & text & tree & _ & _ & _ & H)]; rewrite H; simpl; [lia|].
  apply (upserted_length_bounds (item_of fc tree (clock w))).
Qed.

Lemma for_each_length files w :
  let c' := collection (for_each (process_file parse_html self) files w).2 in
  length (collection w) ≤ length c' ≤ length (collection w) + length files.
Proof.
  revert w. induction files as [|file files IH]; intros w; [simpl; lia|].
  rewrite for_each_cons.
  pose proof (process_file_length file w) as Hl.
  destruct (process_file parse_html self file w) as [[[] | e] w1]; simpl in *.
  - specialize (IH w1). simpl in IH. lia.
  - lia.
Qed.

(** A document of another url stays where it is. *)
Lemma upserted_keeps item c d :
  d ∈ c → url d ≠ url item → d ∈ upserted (url item) item c.
Proof.
  intros Hd Hne. unfold upserted.
  destruct (decide (url item ∈ map url c)) as [Hin | Hout].
  - destruct (replace_first_some _ item c Hin)
      as (before & old & after & -> & Hold & _ & ->).
    rewrite elem_of_app, elem_of_cons in *.
    destruct Hd as [? | [-> | ?]]; [by left | congruence | by right; right].
  - rewrite replace_first_none by done. apply elem_of_app. by left.
Qed.

Lemma for_each_keeps files w d :
  d ∈ collection w →
  (∀ file, file ∈ files → capture_url w file ≠ Some (url d)) →
  d ∈ collection (for_each (process_file parse_html self) files w).2.
Proof.
  revert w. induction files as [|file files IH]; intros w Hd Hother; [done|].
  rewrite for_each_cons.
  destruct (process_file_cases parse_html self file w)
    as [[e H] | (fc & text & tree & Hread & Hcontent & Hparse & H)]; rewrite H;
    [done|].
  apply IH.
  - simpl. apply (upserted_keeps (item_of fc tree (clock w))); [done|].
    intros Heq. apply (Hother file (list_elem_of_here _ _)).
    rewrite (capture_url_item file w fc tree (clock w) Hread) by (by eexists).
    by rewrite Heq.
  - intros f Hf. rewrite (capture_url_bucket f _ w) by done.
    by apply Hother, list_elem_of_further.
Qed.

End Batch.

(** X13 — A sufficient condition for [run] to go through. When the
    listing of [pages/<company>] is a list (and not [None]) and every
    listed capture can be processed (its key holds a JSON dictionary whose
    ["content"] is a string that the HTML parser accepts), [run] returns
    normally, has read the clock once per listed capture, and leaves in
    the collection a document with the url of every listed capture. *)
Theorem run_completes_when_every_capture_is_processable
    (parse_html : string → result HtmlElement) (self : BaseProcessing)
    (w : world) (files : list string) :
  AWSS3.list_files_from_path ("pages/" +:+ company self) w = (Ok (Some files), w) →
  (∀ file, file ∈ files → processable parse_html w file) →
  (run parse_html self w).1 = Ok tt
  ∧ clock (run parse_html self w).2 = clock w + length files
  ∧ ∀ file, file ∈ files →
            ∃ d, d ∈ collection (run parse_html self w).2
                 ∧ Some (url d) = capture_url w file.
Proof.
  intros Hlist Hall. rewrite (run_unfold parse_html self w _ Hlist).
  destruct (for_each_processable parse_html self files w Hall) as (w' & Hrun & Hclock).
  rewrite Hrun. split; [done|]. split; [done|].
  intros file Hfile.
  destruct (processable_capture_url parse_html w file (Hall file Hfile)) as [u Hu].
  assert (u ∈ map url (collection w')) as Hin.
  { apply (for_each_urls parse_html self files w w' Hrun). right. by exists file. }
  apply list_elem_of_fmap in Hin as (d & -> & Hd).
  exists d. by split.
Qed.

Lemma run_completes_when_every_capture_is_processable_witness :
  let self := new_BaseProcessing "Superside" false false in
  let finished := run (parse_known known_pages) self two_captures in
  finished.1 = Ok tt
  ∧ clock finished.2 = clock two_captures + 2
  ∧ ∀ file, file ∈ ["pages/Superside/www.superside.com-a.json";
                     "pages/Superside/www.superside.com-c.json"] →
            ∃ d, d ∈ collection finished.2 ∧ Some (url d) = capture_url two_captures file.
Proof.
  apply (run_completes_when_every_capture_is_processable
           (parse_known known_pages) (new_BaseProcessing "Superside" false false)
           two_captures
           ["pages/Superside/www.superside.com-a.json";
            "pages/Superside/www.superside.com-c.json"]);
    [reflexivity|].
  intros file Hfile.
  apply elem_of_cons in Hfile as [-> | Hfile].
  { exists (JObj [("url", JStr "https://www.superside.com/a");
                  ("content", JStr "<p>Hi</p>")]),
      "<p>Hi</p>", (Element "html" [] [Element "body" [] [Element "p" [] [Text "Hi"]]]).
    repeat split. }
  apply elem_of_cons in Hfile as [-> | Hfile].
  { exists (JObj [("url", JStr "https://www.superside.com/c");
                  ("content", JStr "<p>Bye</p>")]),
      "<p>Bye</p>", (Element "html" [] [Element "body" [] [Element "p" [] [Text "Bye"]]]).
    repeat split. }
  by apply elem_of_nil in Hfile.
Defined.

(** X14 — [run] never writes to the bucket, and never takes a document
    out of the collection: whether it returns or raises, the bucket is as
    before, the collection is at least as long as before, and it has grown
    by at most one document per listed file. *)
Theorem run_leaves_bucket_and_only_adds_documents
    (parse_html : string → result HtmlElement) (self : BaseProcessing) (w : world) :
  let w' := (run parse_html self w).2 in
  bucket w' = bucket w
  ∧ length (collection w) ≤ length (collection w')
  ∧ ∀ files, AWSS3.list_files_from_path ("pages/" +:+ company self) w
             = (Ok (Some files), w) →
             length (collection w') ≤ length (collection w) + length files.
Proof.
  destruct (list_files_from_path_world ("pages/" +:+ company self) w) as [files Hlist].
  rewrite (run_unfold parse_html self w _ Hlist).
  destruct files as [files|].
  2: { simpl. split; [done|]. split; [lia|]. intros files' Hlist'. congruence. }
  pose proof (for_each_invariant parse_html self files w) as [Hb _].
  pose proof (for_each_length parse_html self files w) as Hl.
  simpl in *. split; [done|]. split; [lia|].
  intros files' Hlist'. assert (files' = files) as -> by congruence. lia.
Qed.

(** X15 — [run] touches the documents of the listed captures only: a
    document whose url is the url of none of them is still in the
    collection afterwards, unchanged, whether the run returns or raises. *)
Theorem run_keeps_documents_of_other_urls
    (parse_html : string → result HtmlElement) (self : BaseProcessing)
    (w : world) (files : list string) (d : document) :
  AWSS3.list_files_from_path ("pages/" +:+ company self) w = (Ok (Some files), w) →
  d ∈ collection w →
  (∀ file, file ∈ files → capture_url w file ≠ Some (url d)) →
  d ∈ collection (run parse_html self w).2.
Proof.
  intros Hlist Hd Hother. rewrite (run_unfold parse_html self w _ Hlist).
  by apply for_each_keeps.
Qed.

Lemma run_keeps_documents_of_other_urls_witness :
  let self := new_BaseProcessing "Superside" false false in
  let d := Document (JStr "https://www.superside.com/old") (Some "Old") None None 3 in
  let w := World (bucket two_captures) [d] 10 in
  d ∈ collection (run (parse_known known_pages) self w).2.
Proof.
  intros self d w.
  apply (run_keeps_documents_of_other_urls (parse_known known_pages) self w
           ["pages/Superside/www.superside.com-a.json";
            "pages/Superside/www.superside.com-c.json"] d);
    [reflexivity | apply list_elem_of_here |].
  intros file Hfile.
  repeat (apply elem_of_cons in Hfile as [-> | Hfile]; [vm_compute; discriminate|]).
  by apply elem_of_nil in Hfile.
Defined.

(** X16 — A full reload starts from nothing: when [main] with
    [full_load] set goes through, the collection holds exactly one
    document for every distinct url among the listed captures and no
    other document, whatever it held before. *)
Theorem full_load_leaves_one_document_per_listed_url
    (parse_html : string → result HtmlElement) (debug : bool)
    (w w' : world) (files : list string) :
  AWSS3.list_files_from_path "pages/Superside" w = (Ok (Some files), w) →
  main parse_html true debug w = (Ok tt, w') →
  NoDup (map url (collection w'))
  ∧ ∀ u, u ∈ map url (collection w')
         ↔ ∃ file, file ∈ files ∧ capture_url w file = Some u.
Proof.
  intros Hlist Hmain.
  set (dropped := World (bucket w) [] (clock w)).
  assert (main parse_html true debug w
          = run parse_html (new_BaseProcessing "Superside" true debug) dropped) as Hm
      by done.
  rewrite Hm in Hmain.
  assert (AWSS3.list_files_from_path "pages/Superside" dropped
          = (Ok (Some files), dropped)) as Hlist'.
  { rewrite list_files_from_path_keys in Hlist |- *.
    change (bucket dropped) with (bucket w).
    destruct (S3.keys_with_prefix "pages/Superside" (bucket w)); [done|].
    by assert (Some files = Some (take S3.max_keys (s :: l))) as <- by congruence. }
  destruct (run_one_record_per_listed_url parse_html
              (new_BaseProcessing "Superside" true debug) dropped w' files)
    as [Hnd Hurls]; [done..|].
  split; [done|]. intros u. rewrite Hurls.
  split; intros (f & Hf & Hu); exists f; split; try done.
  - by rewrite (capture_url_bucket f w dropped).
  - by rewrite (capture_url_bucket f dropped w).
Qed.

Lemma full_load_leaves_one_document_per_listed_url_witness :
  let stale := Document (JStr "https://www.superside.com/old") (Some "Old") None None 3 in
  let w := World (bucket two_captures) [stale] 10 in
  let w' := (main (parse_known known_pages) true false w).2 in
  map url (collection w')
  = [JStr "https://www.superside.com/a"; JStr "https://www.superside.com/c"]
  ∧ NoDup (map url (collection w')).
Proof.
  intros stale w w'.
  destruct (full_load_leaves_one_document_per_listed_url
              (parse_known known_pages) false w w'
              ["pages/Superside/www.superside.com-a.json";
               "pages/Superside/www.superside.com-c.json"])
    as [Hnd _]; [reflexivity | reflexivity |].
  split; [reflexivity | exact Hnd].
Defined.

(** X17 — A capture without a string under ["content"] (the key is
    missing, or holds [None], a number, a list, ...) makes the loop body
    raise [TypeError] from [html.fromstring]; nothing is written. *)
Theorem capture_without_content_raises_type_error
    (parse_html : string → result HtmlElement) (self : BaseProcessing)
    (file : string) (w : world) (fields : list (string * json)) :
  AWSS3.read_json file w = (Ok (JObj fields), w) →
  (∀ text, Json.assoc "content" fields ≠ Some (JStr text)) →
  process_file parse_html self file w = (Raise TypeError, w).
Proof.
  intros Hread Hcontent. unfold process_file, mbind, M_bind, lift.
  rewrite Hread. simpl.
  destruct (Json.assoc "content" fields) as [[| | | text | |]|]; simpl; try done.
  by destruct (Hcontent text).
Qed.

Lemma capture_without_content_raises_type_error_witness :
  let file := "pages/Superside/www.superside.com-x.json" in
  let w := after (AWSS3.save_dict_to_json
                    (JObj [("url", JStr "https://www.superside.com/x")]) file)
                 (World ∅ [] 0) in
  process_file (parse_known known_pages) (new_BaseProcessing "Superside" false false)
               file w
  = (Raise TypeError, w).
Proof.
  intros file w.
  apply (capture_without_content_raises_type_error
           (parse_known known_pages) (new_BaseProcessing "Superside" false false)
           file w [("url", JStr "https://www.superside.com/x")]);
    [reflexivity | discriminate].
Defined.

(* ===================================================================== *)
(** * More on the crawler *)
(* ===================================================================== *)

Section CrawlerNames.

Lemma map_chars_char f s c :
  has_char c (Py.map_chars f s) = true → ∃ a, c = f a.
Proof.
  induction s as [|x s IH]; [done|].
  simpl. rewrite orb_true_iff, bool_decide_eq_true.
  intros [<- | H]; [by exists x | by apply IH].
Qed.

Lemma sanitize_ascii a : Py.ord (sanitize a) < 128 ∧ sanitize a ≠ "/"%char.
Proof.
  unfold sanitize. case_decide as Hslash; [by split; [vm_compute; lia|]|].
  destruct (Py.ord a <? 128) eqn:Ha.
  - apply Nat.ltb_lt in Ha. by split.
  - by split; [vm_compute; lia|].
Qed.

Lemma page_name_cleaned_sanitized response :
  SupersideSpider.page_name_cleaned response
  = Py.map_chars sanitize (Py.last_piece (Py.split "://" (response_url response))).
Proof.
  unfold SupersideSpider.page_name_cleaned, SupersideSpider.page_name.
  rewrite replace_slash, map_chars_compose. apply map_chars_ext, sanitize_compose.
Qed.

Lemma file_path_prefix response :
  Py.startswith "pages/Superside" (SupersideSpider.file_path response) = true.
Proof.
  apply startswith_spec.
  by exists ("/" +:+ SupersideSpider.page_name_cleaned response +:+ ".json").
Qed.

End CrawlerNames.

(** X18 — The name under which a page is stored is plain ASCII and holds
    no ["/"], whatever the URL: every character of
    [page_name_cleaned] has a code below 128 and is not the path
    separator. *)
Theorem page_name_is_ascii_without_slash (response : HtmlResponse) (c : ascii) :
  has_char c (SupersideSpider.page_name_cleaned response) = true →
  Py.ord c < 128 ∧ c ≠ "/"%char.
Proof.
  rewrite page_name_cleaned_sanitized. intros [a ->]%map_chars_char.
  apply sanitize_ascii.
Qed.

Lemma page_name_is_ascii_without_slash_witness :
  Py.ord "-" < 128 ∧ "-"%char ≠ "/"%char.
Proof.
  apply (page_name_is_ascii_without_slash
           {| response_url := "https://www.superside.com/caf" +:+ String "233" "/menu";
              response_text := "" |} "-"%char).
  reflexivity.
Defined.




(* ===================================================================== *)
(** * The chatbot *)
(* ===================================================================== *)

Section CompanyData.

Lemma assign_text_notna d r : Chatbot.assign_text d = Some r → url d ≠ JNull →
  Chatbot.notna d = true.
Proof.
  unfold Chatbot.assign_text, Chatbot.notna.
  destruct (title d), (description d), (texts d); try done.
  by destruct (url d).
Qed.

Lemma unique_document c d1 d2 :
  NoDup (map url c) → d1 ∈ c → d2 ∈ c → url d2 = url d1 → d2 = d1.
Proof.
  intros Hnd H1 H2 Hurl.
  pose proof (with_url_unique d1 c Hnd H1) as Hw.
  assert (d2 ∈ with_url (url d1) c) as Hin.
  { unfold with_url. apply list_elem_of_filter. split; [|done].
    rewrite Hurl. apply json_eqb_refl. }
  rewrite Hw in Hin. by apply list_elem_of_singleton in Hin.
Qed.

End CompanyData.

(** X21 — On an empty collection [get_company_data] raises [KeyError].
    Otherwise it returns one row for every document in which none of
    [url], [title], [description] and [texts] is [None], and only such
    rows; the row carries the url and the text
    ["Title: <title>\nDescription: <description>\nContent: <texts>"]. *)
Theorem company_data_has_the_complete_documents (w : world) :
  (collection w = [] → Chatbot.get_company_data w = Chatbot.RaiseKeyError)
  ∧ (collection w ≠ [] →
     ∃ rows,
       Chatbot.get_company_data w = Chatbot.Frame rows
       ∧ ∀ r, r ∈ rows
              ↔ ∃ d t de tx,
                  d ∈ collection w
                  ∧ url d ≠ JNull
                  ∧ title d = Some t ∧ description d = Some de ∧ texts d = Some tx
                  ∧ r = Chatbot.Row (url d)
                          ("Title: " +:+ t +:+ newline +:+ "Description: " +:+ de
                           +:+ newline +:+ "Content: " +:+ tx)).
Proof.
  unfold Chatbot.get_company_data. split; [by intros ->|].
  intros Hne. destruct (collection w) as [|d0 c] eqn:Hc; [done|].
  eexists. split; [reflexivity|]. intros r.
  rewrite list_elem_of_omap. unfold Chatbot.dropna. split.
  - intros (d & [Hna Hd]%list_elem_of_filter & Hr).
    unfold Chatbot.assign_text in Hr. unfold Chatbot.notna in Hna.
    destruct (title d) as [t|] eqn:Ht, (description d) as [de|] eqn:Hde,
      (texts d) as [tx|] eqn:Htx; try done.
    exists d, t, de, tx. injection Hr as <-.
    repeat split; try done. intros Hu. by rewrite Hu in Hna.
  - intros (d & t & de & tx & Hd & Hu & Ht & Hde & Htx & ->).
    exists d. split.
    + apply list_elem_of_filter. split; [|done].
      unfold Chatbot.notna. rewrite Ht, Hde, Htx. by destruct (url d).
    + unfold Chatbot.assign_text. by rewrite Ht, Hde, Htx.
Qed.

(** X22 — A page that lacks one of the three fields does not reach the
    chatbot. In a collection that holds at most one document per url (as
    [run] leaves it), after the loop body of [run] has stored the document
    of a capture whose tree gives no title, no description or no text, no
    row of [get_company_data] carries the url of that capture; a complete
    document that an earlier run had stored for that url is replaced, and
    its row is gone. *)
Theorem page_with_absent_field_gives_no_row
    (parse_html : string → result HtmlElement) (self : BaseProcessing)
    (file : string) (w : world) (file_contents : json) (text : string)
    (tree : HtmlElement) (rows : list Chatbot.row) (r : Chatbot.row) :
  NoDup (map url (collection w)) →
  AWSS3.read_json file w = (Ok file_contents, w) →
  Json.get file_contents "content" = Ok (JStr text) →
  parse_html text = Ok tree →
  extract_text_by_xpath tree sel_title = None
  ∨ extract_text_by_xpath tree sel_description = None
  ∨ extract_text_by_xpath tree sel_texts = None →
  Chatbot.get_company_data (process_file parse_html self file w).2 = Chatbot.Frame rows →
  r ∈ rows →
  Some (Chatbot.row_url r) ≠ capture_url w file.
Proof.
  intros Hnd Hread Hcontent Hparse Habsent Hframe Hr Hcap.
  rewrite (process_file_ok parse_html self file w file_contents text tree) in Hframe
    by done.
  set (item := item_of file_contents tree (clock w)) in *.
  rewrite (capture_url_item file w file_contents tree (clock w) Hread) in Hcap
    by (by eexists).
  injection Hcap as Hcap. fold item in Hcap.
  assert (collection (processed file_contents tree w)
          = upserted (url item) item (collection w)) as Hc by done.
  unfold Chatbot.get_company_data in Hframe. simpl snd in Hframe.
  rewrite Hc in Hframe.
  pose proof (upserted_nodup item (collection w) Hnd) as Hnd'.
  pose proof (upserted_elem item (collection w)) as Hitem.
  destruct (upserted (url item) item (collection w)) as [|d0 c] eqn:Hup; [done|].
  injection Hframe as <-.
  apply list_elem_of_omap in Hr as (d & [_ Hd]%list_elem_of_filter & Hrow).
  assert (url d = url item) as Hurl.
  { unfold Chatbot.assign_text in Hrow.
    destruct (title d), (description d), (texts d); try done.
    injection Hrow as <-. done. }
  assert (d = item) as -> by (by apply (unique_document (d0 :: c))).
  unfold Chatbot.assign_text in Hrow.
  assert (title item = extract_text_by_xpath tree sel_title) as Ht by done.
  assert (description item = extract_text_by_xpath tree sel_description) as Hde by done.
  assert (texts item = extract_text_by_xpath tree sel_texts) as Htx by done.
  rewrite Ht, Hde, Htx in Hrow.
  destruct Habsent as [H | [H | H]]; rewrite H in Hrow;
    repeat case_match; discriminate.
Qed.

Lemma page_with_absent_field_gives_no_row_witness :
  let self := new_BaseProcessing "Superside" false false in
  let file := "pages/Superside/www.superside.com-a.json" in
  let home := Document (JStr "https://www.superside.com/home")
                       (Some "Home") (Some "Design at scale") (Some "Welcome") 1 in
  let earlier := Document (JStr "https://www.superside.com/a")
                          (Some "A") (Some "The page a") (Some "Hi") 2 in
  let w := World (bucket two_captures) [home; earlier] 3 in
  let w' := (process_file (parse_known known_pages) self file w).2 in
  let r := Chatbot.Row (JStr "https://www.superside.com/home")
                       ("Title: Home" +:+ newline +:+ "Description: Design at scale"
                        +:+ newline +:+ "Content: Welcome") in
  collection w' = [home; Document (JStr "https://www.superside.com/a")
                                  None None (Some "Hi") 3]
  ∧ Chatbot.get_company_data w' = Chatbot.Frame [r]
  ∧ r ∈ [r]
  ∧ Some (Chatbot.row_url r) ≠ capture_url w file.
Proof.
  intros self file home earlier w w' r.
  split; [reflexivity|]. split; [reflexivity|].
  split; [apply list_elem_of_here|].
  apply (page_with_absent_field_gives_no_row (parse_known known_pages) self file w
           (JObj [("url", JStr "https://www.superside.com/a");
                  ("content", JStr "<p>Hi</p>")])
           "<p>Hi</p>"
           (Element "html" [] [Element "body" [] [Element "p" [] [Text "Hi"]]])
           [r] r).
  - apply NoDup_cons. split; [|apply NoDup_singleton].
    intros Hin. apply list_elem_of_singleton in Hin. discriminate.
  - reflexivity.
  - reflexivity.
  - reflexivity.
  - by left.
  - reflexivity.
  - apply list_elem_of_here.
Defined.

Section ChatSession.
Variable answer : nat → string → list (string * string) → string.

Lemma user_keeps_chat_history m history a :
  Chatbot.chat_history (Chatbot.user answer m history a).2 = Chatbot.chat_history a.
Proof. reflexivity. Qed.

Lemma submit_all_requests messages history a :
  Chatbot.chat_history a = [] →
  let '(history', a') := Chatbot.submit_all answer messages history a in
  Chatbot.chat_history a' = []
  ∧ Chatbot.requests a' = Chatbot.requests a ++ map (fun m => (m, [])) messages
  ∧ map fst history' = map fst history ++ messages
  ∧ length history' = length history + length messages.
Proof.
  revert history a. induction messages as [|m messages IH]; intros history a Hempty.
  - simpl. by rewrite !app_nil_r, Nat.add_0_r.
  - simpl Chatbot.submit_all.
    specialize (IH (history ++ [(m, answer (length (Chatbot.requests a)) m
                                   (map (fun message : string * string =>
                                           (message.1, message.2))
                                        (Chatbot.chat_history a)))])
                   (Chatbot.App (Chatbot.chat_history a)
                      (Chatbot.requests a
                       ++ [(m, map (fun message : string * string =>
                                      (message.1, message.2))
                                   (Chatbot.chat_history a))]))
                   Hempty).
    unfold Chatbot.user.
    destruct (Chatbot.submit_all answer messages _ _) as [history' a'].
    destruct IH as (H1 & H2 & H3 & H4).
    split; [done|]. rewrite H2, H3, H4, Hempty. simpl.
    rewrite map_app, !length_app, <- !app_assoc. simpl.
    split; [done|]. split; [done | lia].
Qed.

End ChatSession.

(** X23 — The chain never sees the conversation: in a session that starts
    with the application, every request that [user] sends to the chain
    carries an empty chat history, however many messages went before; the
    displayed history gets one entry per message, in order. *)
Theorem chain_requests_carry_no_history
    (answer : nat → string → list (string * string) → string)
    (messages : list string) (history : list (string * string)) :
  let session := Chatbot.submit_all answer messages history Chatbot.initial_app in
  Chatbot.requests session.2 = map (fun m => (m, [])) messages
  ∧ map fst session.1 = map fst history ++ messages
  ∧ length session.1 = length history + length messages.
Proof.
  pose proof (submit_all_requests answer messages history Chatbot.initial_app eq_refl)
    as H.
  destruct (Chatbot.submit_all answer messages history Chatbot.initial_app)
    as [history' a'].
  destruct H as (_ & H2 & H3 & H4). simpl. by rewrite H2.
Qed.
